(** * FreecellGame: a shallow embedding of the Freecell rules engine

    The JavaScript class [FreecellGame] (src/FreecellGame.class.js) owns three
    arrays of piles and exposes queries, a legality predicate and mutators.
    Its methods are embedded in a small state-and-exception monad over the
    record of the three pile arrays; static helpers are plain functions. *)

From Stdlib Require Import ZArith QArith Qround.
From stdpp Require Import base tactics option list strings numbers.

Local Open Scope string_scope.
Local Open Scope list_scope.
Local Open Scope Z_scope.

(** ** Cards *)

(** The four suit names that [getDeck] hands to [new Card]. *)
Inductive Suit := spades | clubs | diamonds | hearts.

(** Modelled from the spec: the class [Card] (its file is not part of the
    sources at hand).  A card is an immutable pair of a rank [value] and a
    [suit]; [getValue] reads the rank and [isBlack] holds for spades and
    clubs. *)
Record Card := mkCard { value : Z; suit : Suit }.

Definition getValue (c : Card) : Z := value c.

Definition isBlack (c : Card) : bool :=
  match suit c with
  | spades | clubs => true
  | diamonds | hearts => false
  end.

#[global] Instance Suit_eq_dec : EqDecision Suit.
Proof. solve_decision. Defined.

#[global] Instance Card_eq_dec : EqDecision Card.
Proof. solve_decision. Defined.

(** ** Piles and the game state *)

(** An array element is a [Card] or [undefined]: [Array.prototype.pop] on an
    empty array yields [undefined], and [executeMove] pushes whatever it
    popped. *)
Abbreviation Slot := (option Card).
Definition undefined : Slot := None.

Abbreviation Pile := (list Slot).

Record FreecellGame := mkGame {
  foundation : list Pile;
  open : list Pile;
  cascade : list Pile
}.

(** A pile reference such as [{type: "cascade", index: 0, cardIndex: 5}] or
    [{type: "open", index: 3}].  [type] is a string, so any kind can be
    named.  A cascade reference has its [cardIndex]; the methods read that
    field only when [type] is ["cascade"], and references of the other kinds
    carry a value that is never looked at. *)
Record PileRef := mkRef { type : string; index : Z; cardIndex : Z }.

(** [a[i]] for a numeric index: [undefined] outside [0 .. length-1]. *)
Definition at_index {A} (a : list A) (i : Z) : option A :=
  if bool_decide (0 ≤ i) then a !! Z.to_nat i else None.

Definition len {A} (a : list A) : Z := Z.of_nat (length a).

(** [a.slice(start)] and [a.slice(0, end)] resolve a relative index the same
    way: a negative one counts from the end, and the result is clamped. *)
Definition relative_index {A} (a : list A) (i : Z) : nat :=
  if bool_decide (i < 0) then Z.to_nat (Z.max (len a + i) 0)
  else Z.to_nat (Z.min i (len a)).

Definition slice_from {A} (a : list A) (start : Z) : list A :=
  drop (relative_index a start) a.

Definition slice_to {A} (a : list A) (stop : Z) : list A :=
  take (relative_index a stop) a.

(** Reading an element of a pile: a missing element reads as [undefined],
    like an element that is [undefined]. *)
Definition element (o : option Slot) : Slot :=
  match o with
  | Some x => x
  | None => undefined
  end.

(** [a[a.length - 1]] *)
Definition top {A} (a : list A) : option A := at_index a (len a - 1).

(** ** The monad of methods: the state [this] and a thrown [TypeError] *)

Inductive result (A : Type) :=
  | Ok (a : A)
  | TypeError.
Arguments Ok {A} a.
Arguments TypeError {A}.

Definition M (A : Type) : Type := FreecellGame → result A * FreecellGame.

#[global] Instance M_ret : MRet M := λ A a g, (Ok a, g).

#[global] Instance M_bind : MBind M := λ A B k m g,
  match m g with
  | (Ok a, g') => k a g'
  | (TypeError, g') => (TypeError, g')
  end.

Definition throw {A} : M A := λ g, (TypeError, g).

Definition gets {A} (f : FreecellGame → A) : M A := λ g, (Ok (f g), g).

Definition modify (f : FreecellGame → FreecellGame) : M unit := λ g, (Ok tt, f g).

(** Reading a property of a value that may be [undefined]. *)
Definition defined {A} (o : option A) : M A :=
  match o with
  | Some a => mret a
  | None => throw
  end.

(** [for (i = start; ...; i++) body], run [n] times unless the body returns:
    the body yields [Some r] for [return r] and [None] to go on; [after] is
    the code following the loop. *)
Fixpoint for_loop {A} (n : nat) (i : Z) (body : Z → M (option A)) (after : M A) : M A :=
  match n with
  | O => after
  | S n' =>
      r ← body i;
      match r with
      | Some a => mret a
      | None => for_loop n' (i + 1) body after
      end
  end.

(** ** Accessors to [this] *)

Definition this_foundation (i : Z) : M (option Pile) := gets (λ g, at_index (foundation g) i).
Definition this_open (i : Z) : M (option Pile) := gets (λ g, at_index (open g) i).
Definition this_cascade (i : Z) : M (option Pile) := gets (λ g, at_index (cascade g) i).

Definition getNumCascade : M Z := gets (λ g, len (cascade g)).
Definition getNumOpen : M Z := gets (λ g, len (open g)).

(** ** Queries *)

(** [this.cascade[srcPile.index][srcPile.cardIndex]], stopping with a
    [TypeError] when the pile itself is [undefined]. *)
Definition cascade_card (srcPile : PileRef) : M Slot :=
  p ← this_cascade (index srcPile);
  p ← defined p;
  mret (element (at_index p (cardIndex srcPile))).

(** [this.open[srcPile.index][0]] *)
Definition open_card (srcPile : PileRef) : M Slot :=
  p ← this_open (index srcPile);
  p ← defined p;
  mret (element (at_index p 0)).

Definition getValidFoundation (srcPile : PileRef) : M Z :=
  if bool_decide (type srcPile = "cascade") then
    for_loop 4 0 (λ i,
      f ← this_foundation i;
      f ← defined f;
      if bool_decide (len f = 0) then
        c ← cascade_card srcPile;
        c ← defined c;
        if bool_decide (value c = 1) then mret (Some i) else mret (Some (-1))
      else
        t ← defined (element (top f));
        c ← cascade_card srcPile;
        c ← defined c;
        if bool_decide (suit t = suit c) && bool_decide (value t = value c - 1)
        then mret (Some i) else mret None)
      (mret (-1))
  else if bool_decide (type srcPile = "open") then
    for_loop 4 0 (λ i,
      f ← this_foundation i;
      f ← defined f;
      if bool_decide (len f = 0) then
        c ← open_card srcPile;
        c ← defined c;
        if bool_decide (value c = 1) then mret (Some i) else mret None
      else
        t ← defined (element (top f));
        c ← open_card srcPile;
        c ← defined c;
        if bool_decide (suit t = suit c) && bool_decide (value t = value c - 1)
        then mret (Some i) else mret None)
      (mret (-1))
  else mret (-1).

Definition getFirstAvailableOpen : M Z :=
  n ← getNumOpen;
  for_loop (Z.to_nat n) 0 (λ i,
      p ← this_open i;
      p ← defined p;
      if bool_decide (len p = 0) then mret (Some i) else mret None)
    (mret (-1)).

(** [static _isStackable(underCard, overCard)]: both must be cards. *)
Definition _isStackable (underCard overCard : Slot) : bool :=
  match underCard, overCard with
  | Some u, Some o =>
      bool_decide (getValue u - 1 = getValue o)
      && negb (Bool.eqb (isBlack o) (isBlack u))
  | _, _ => false
  end.

Definition isBuild (pileIdx cardIdx : Z) : M bool :=
  p ← this_cascade pileIdx;
  p ← defined p;
  for_loop (Z.to_nat (len p - cardIdx)) cardIdx (λ i,
      if bool_decide (i = len p - 1) then mret (Some true)
      else if negb (_isStackable (element (at_index p i)) (element (at_index p (i + 1))))
      then mret (Some false)
      else mret None)
    (mret true).

(** The two [reduce] calls of [_numCanMove] count the empty piles. *)
Definition count_empty (piles : list Pile) : Z :=
  foldl (λ sum c, if bool_decide (len c = 0) then sum + 1 else sum) 0 piles.

Definition _numCanMove (destPileIndex : Z) : M Z :=
  numOpen ← gets (λ g, count_empty (open g));
  numEmptyCascade ← gets (λ g, count_empty (cascade g));
  d ← this_cascade destPileIndex;
  d ← defined d;
  let numEmptyCascade :=
    if bool_decide (len d = 0) then numEmptyCascade - 1 else numEmptyCascade in
  mret ((numOpen + 1) * 2 ^ numEmptyCascade).

(** ** Move legality *)

Definition isValidMove (srcPile destPile : option PileRef) : M bool :=
  match srcPile, destPile with
  | Some srcPile, Some destPile =>
      if bool_decide (type srcPile = type destPile)
           && bool_decide (index srcPile = index destPile)
         || bool_decide (type srcPile = "foundation")
      then mret false
      else if bool_decide (type srcPile = "cascade") then
        if bool_decide (type destPile = "open") then
          a ← getFirstAvailableOpen;
          if bool_decide (a = -1) then mret false else
          s ← this_cascade (index srcPile);
          s ← defined s;
          if bool_decide (cardIndex srcPile ≠ len s - 1) then mret false else
          o ← this_open (index destPile);
          match o with
          | Some o => if bool_decide (len o ≠ 0) then mret false else mret true
          | None => mret true
          end
        else if bool_decide (type destPile = "cascade") then
          d ← this_cascade (index destPile);
          d ← defined d;
          if bool_decide (len d = 0) then mret true else
          s ← this_cascade (index srcPile);
          s ← defined s;
          n ← _numCanMove (index destPile);
          if bool_decide (len s - cardIndex srcPile > n) then mret false else
          b ← isBuild (index srcPile) (cardIndex srcPile);
          if negb b then mret false else
          d ← this_cascade (index destPile);
          d ← defined d;
          s ← this_cascade (index srcPile);
          s ← defined s;
          if negb (_isStackable (element (top d)) (element (at_index s (cardIndex srcPile))))
          then mret false else mret true
        else if bool_decide (type destPile = "foundation") then
          v ← getValidFoundation srcPile;
          if bool_decide (v = -1) then mret false else mret true
        else mret true
      else if bool_decide (type srcPile = "open") then
        if bool_decide (type destPile = "cascade") then
          d ← this_cascade (index destPile);
          d ← defined d;
          if bool_decide (len d = 0) then mret true else
          c ← open_card srcPile;
          if negb (_isStackable (element (top d)) c) then mret false else mret true
        else if bool_decide (type destPile = "open") then
          d ← this_open (index destPile);
          d ← defined d;
          if bool_decide (len d ≠ 0) then mret false else mret true
        else if bool_decide (type destPile = "foundation") then
          v ← getValidFoundation srcPile;
          if bool_decide (v = -1) then mret false else mret true
        else mret true
      else mret true
  | _, _ => mret false
  end.

(** ** Mutators *)

(** [this.foundation[i] = p] and its siblings, for an index that names an
    existing pile; the outer arrays never change length. *)
Definition store {A} (a : list A) (i : Z) (x : A) : list A :=
  if bool_decide (0 ≤ i) then <[Z.to_nat i := x]> a else a.

Definition set_foundation (i : Z) (p : Pile) : M unit :=
  modify (λ g, mkGame (store (foundation g) i p) (open g) (cascade g)).
Definition set_open (i : Z) (p : Pile) : M unit :=
  modify (λ g, mkGame (foundation g) (store (open g) i p) (cascade g)).
Definition set_cascade (i : Z) (p : Pile) : M unit :=
  modify (λ g, mkGame (foundation g) (open g) (store (cascade g) i p)).

(** [this.cascade[i].pop()] and [this.open[i].pop()]: the last element, or
    [undefined] for an empty array, which is left empty. *)
Definition pop_cascade (i : Z) : M Slot :=
  p ← this_cascade i;
  p ← defined p;
  set_cascade i (removelast p);;
  mret (element (top p)).

Definition pop_open (i : Z) : M Slot :=
  p ← this_open i;
  p ← defined p;
  set_open i (removelast p);;
  mret (element (top p)).

(** [receiver.push(x)]; the receiver was evaluated (and found to be an array)
    before the argument, so a missing pile throws before anything is popped. *)
Definition push_foundation (i : Z) (x : Slot) : M unit :=
  p ← this_foundation i;
  p ← defined p;
  set_foundation i (p ++ [x]).

Definition push_open (i : Z) (x : Slot) : M unit :=
  p ← this_open i;
  p ← defined p;
  set_open i (p ++ [x]).

Definition push_cascade (i : Z) (x : Slot) : M unit :=
  p ← this_cascade i;
  p ← defined p;
  set_cascade i (p ++ [x]).

Definition executeMove (srcPile destPile : PileRef) : M unit :=
  (if bool_decide (type srcPile = "cascade") then
     if bool_decide (type destPile = "open") then
       r ← this_open (index destPile);
       defined r;;
       x ← pop_cascade (index srcPile);
       push_open (index destPile) x
     else if bool_decide (type destPile = "cascade") then
       s ← this_cascade (index srcPile);
       s ← defined s;
       let tempVar := slice_from s (cardIndex srcPile) in
       s ← this_cascade (index srcPile);
       s ← defined s;
       set_cascade (index srcPile) (slice_to s (cardIndex srcPile));;
       d ← this_cascade (index destPile);
       d ← defined d;
       set_cascade (index destPile) (d ++ tempVar)
     else if bool_decide (type destPile = "foundation") then
       r ← this_foundation (index destPile);
       defined r;;
       x ← pop_cascade (index srcPile);
       push_foundation (index destPile) x
     else mret tt
   else mret tt);;
  (if bool_decide (type srcPile = "open") then
     if bool_decide (type destPile = "open") then
       r ← this_open (index destPile);
       defined r;;
       x ← pop_open (index srcPile);
       push_open (index destPile) x
     else if bool_decide (type destPile = "cascade") then
       r ← this_cascade (index destPile);
       defined r;;
       x ← pop_open (index srcPile);
       push_cascade (index destPile) x
     else if bool_decide (type destPile = "foundation") then
       r ← this_foundation (index destPile);
       defined r;;
       x ← pop_open (index srcPile);
       push_foundation (index destPile) x
     else mret tt
   else mret tt).

(** The object literals [{type: "foundation", index: i}] and
    [{type: "open", index: i}] built by [attemptAutoMove]. *)
Definition destination (kind : string) (i : Z) : PileRef := mkRef kind i 0.

Definition attemptAutoMove (srcPile : PileRef) : M bool :=
  r ← (if bool_decide (type srcPile = "cascade") then
         v ← getValidFoundation srcPile;
         if bool_decide (v ≠ -1) then
           v ← getValidFoundation srcPile;
           executeMove srcPile (destination "foundation" v);;
           mret (Some true)
         else
           a ← getFirstAvailableOpen;
           if bool_decide (a ≠ -1) then
             a ← getFirstAvailableOpen;
             executeMove srcPile (destination "open" a);;
             mret (Some true)
           else mret None
       else mret None);
  match r with
  | Some b => mret b
  | None =>
      if bool_decide (type srcPile = "open") then
        v ← getValidFoundation srcPile;
        if bool_decide (v ≠ -1) then
          v ← getValidFoundation srcPile;
          executeMove srcPile (destination "foundation" v);;
          mret true
        else mret false
      else mret false
  end.

(** ** Construction *)

(** The numeric arguments of the constructor.  A finite JavaScript number is
    a rational; the two tests against 1 and 52 are exact on it. *)
Inductive number :=
  | NaN
  | Infinity (negative : bool)
  | Num (q : Q).

Definition truncate (q : Q) : Z :=
  if Qle_bool 0 q then Qfloor q else Qceiling q.

(** [parseInt(x, 10)] of a number: the digits before the decimal point of its
    decimal notation; [None] stands for the result [NaN].  (Numbers printed
    with an exponent, beyond 1e21 or below 1e-6 in magnitude, parse to some
    other integer, but still to a number, and the range tests reject them.) *)
Definition parseInt (x : number) : option Z :=
  match x with
  | Num q => Some (truncate q)
  | NaN | Infinity _ => None
  end.

(** [x < k] and [x > k] for an integer constant [k]. *)
Definition less_than (x : number) (k : Z) : bool :=
  match x with
  | NaN => false
  | Infinity negative => negative
  | Num q => negb (Qle_bool (inject_Z k) q)
  end.

Definition greater_than (x : number) (k : Z) : bool :=
  match x with
  | NaN => false
  | Infinity negative => negb negative
  | Num q => negb (Qle_bool q (inject_Z k))
  end.

(** The value thrown by the constructor: [message + arg]. *)
Inductive exception :=
  | Thrown (message : string) (arg : number).

(** [Math.random]: the k-th call returns a number in the interval [0, 1). *)
Record RandomSource := {
  random : nat → Q;
  random_range : ∀ k, (0 <= random k)%Q ∧ (random k < 1)%Q
}.

Definition suits : list Suit := [spades; clubs; diamonds; hearts].

(** The two nested loops of [getDeck]: ranks 13 down to 1, each in the four
    suits. *)
Definition ranks : list Z := [13; 12; 11; 10; 9; 8; 7; 6; 5; 4; 3; 2; 1].

Definition unshuffled : list Card :=
  v ← ranks; s ← suits; [mkCard v s].

(** [[array[i], array[j]] = [array[j], array[i]]] for two indices inside
    the array. *)
Definition swap {A} (array : list A) (i j : nat) : list A :=
  match array !! i, array !! j with
  | Some ai, Some aj => <[j := ai]> (<[i := aj]> array)
  | _, _ => array
  end.

(** [shuffle]: [i] runs from the last index down to 1; [call] counts the
    calls to [Math.random] made so far.  The product
    [Math.random() * (i + 1)] is taken exactly here, where the code rounds
    it to a double, so for some draws the index may differ from the code's;
    what is proved of the shuffle below holds whatever index is drawn. *)
Fixpoint shuffle_from {A} (rnd : RandomSource) (call : nat) (i : nat) (array : list A) : list A :=
  match i with
  | O => array
  | S i' =>
      let j := Z.to_nat (Qfloor (random rnd call * inject_Z (Z.of_nat i + 1))) in
      shuffle_from rnd (S call) i' (swap array i j)
  end.

Definition shuffle {A} (rnd : RandomSource) (array : list A) : list A :=
  shuffle_from rnd 0 (length array - 1) array.

Definition getDeck (rnd : RandomSource) : list Card := shuffle rnd unshuffled.

(** [this.cascade[i % numCascade].push(deck[i])], for [i] from the given
    position on. *)
Fixpoint deal (numCascade : Z) (i : Z) (deck : list Card) (cascade : list Pile) : list Pile :=
  match deck with
  | [] => cascade
  | c :: deck' =>
      deal numCascade (i + 1) deck'
        (alter (λ p, p ++ [Some c]) (Z.to_nat (i `mod` numCascade)) cascade)
  end.

Definition constructor (rnd : RandomSource) (numOpen numCascade : number)
  : exception + FreecellGame :=
  match parseInt numOpen with
  | None => inl (Thrown "Invalid number of open piles: " numOpen)
  | Some nOpen =>
      if less_than numOpen 1 || greater_than numOpen 52
      then inl (Thrown "Invalid number of open piles: " numOpen)
      else
        match parseInt numCascade with
        | None => inl (Thrown "Invalid number of cascade piles: " numCascade)
        | Some nCascade =>
            if less_than numCascade 1 || greater_than numCascade 52
            then inl (Thrown "Invalid number of cascade piles: " numCascade)
            else
              inr {| foundation := replicate 4 [];
                     open := replicate (Z.to_nat nOpen) [];
                     cascade := deal nCascade 0 (getDeck rnd)
                                  (replicate (Z.to_nat nCascade) []) |}
        end
  end.

(** ** Repeated calls, reachable states, the cards of a state *)

(** [n] successive calls of a method on the same object: the results in
    order, and the final state. *)
Fixpoint repeatedly {A} (n : nat) (m : M A) (g : FreecellGame) : list (result A) * FreecellGame :=
  match n with
  | O => ([], g)
  | S n' =>
      let '(r, g') := m g in
      let '(rs, g'') := repeatedly n' m g' in
      (r :: rs, g'')
  end.

(** The states a game can be in: a freshly constructed one, the state left
    by [executeMove] on a move that [isValidMove] accepted, and the state
    left by [attemptAutoMove]. *)
Inductive reachable : FreecellGame → Prop :=
  | reachable_fresh rnd numOpen numCascade g :
      constructor rnd numOpen numCascade = inr g → reachable g
  | reachable_move g srcPile destPile :
      reachable g →
      (isValidMove (Some srcPile) (Some destPile) g).1 = Ok true →
      reachable (executeMove srcPile destPile g).2
  | reachable_auto g srcPile :
      reachable g → reachable (attemptAutoMove srcPile g).2.

(** Every element of every pile, in the order foundation, open, cascade. *)
Definition contents (g : FreecellGame) : list Slot :=
  concat (foundation g) ++ concat (open g) ++ concat (cascade g).

(** The cards among them. *)
Definition cards (g : FreecellGame) : list Card := omap id (contents g).

(** ** Notions used to state the properties *)

(** A method is read-only when it hands back the state it was given,
    whether it returns or throws. *)
Definition readonly {A} (m : M A) : Prop := ∀ g, (m g).2 = g.

(** The value a [for_loop] returns when its body is a computation [f] of the
    index alone. *)
Fixpoint first_return {A} (n : nat) (i : Z) (f : Z → option A) (after : A) : A :=
  match n with
  | O => after
  | S n' =>
      match f i with
      | Some a => a
      | None => first_return n' (i + 1) f after
      end
  end.

(** One iteration of the loop of [isBuild] on the pile [p]. *)
Definition isBuild_step (p : Pile) (i : Z) : option bool :=
  if bool_decide (i = len p - 1) then Some true
  else if negb (_isStackable (element (at_index p i)) (element (at_index p (i + 1))))
  then Some false
  else None.

(** The number of empty piles among some piles. *)
Definition empty_piles (piles : list Pile) : Z :=
  Z.of_nat (length (filter (λ p, p = []) piles)).

(** The six source and destination kinds that [isValidMove] has a case
    for. *)
Definition enumerated (srcKind destKind : string) : bool :=
  (bool_decide (srcKind = "cascade") || bool_decide (srcKind = "open"))
  && (bool_decide (destKind = "open") || bool_decide (destKind = "cascade")
      || bool_decide (destKind = "foundation")).

(** How many times the card [c] occurs among some array elements, in the
    piles of one kind, and in a whole state. *)
Definition tally (c : Card) (l : list Slot) : nat :=
  count_occ Card_eq_dec (omap id l) c.

Definition piles_tally (c : Card) (a : list Pile) : nat := tally c (concat a).

Definition game_tally (c : Card) (g : FreecellGame) : nat := tally c (contents g).

(** An outcome of a mutator that kept every card, and that left the state
    alone if it threw. *)
Definition conserving (c : Card) (g : FreecellGame) {A}
    (outcome : result A * FreecellGame) : Prop :=
  game_tally c outcome.2 = game_tally c g
  ∧ (outcome.1 = TypeError → outcome.2 = g).

(** What [attemptAutoMove] makes of the outcome of the [executeMove] it
    called: [return true] comes next. *)
Definition then_true (outcome : result unit * FreecellGame) : result bool * FreecellGame :=
  match outcome with
  | (Ok _, g') => (Ok true, g')
  | (TypeError, g') => (TypeError, g')
  end.

(** The destination [attemptAutoMove] picks, if any: the foundation pile
    that [getValidFoundation] returns; failing that, for a cascade source,
    the open pile that [getFirstAvailableOpen] returns. *)
Definition auto_destination (g : FreecellGame) (srcPile destPile : PileRef) : Prop :=
  (∃ v, (type srcPile = "cascade" ∨ type srcPile = "open")
        ∧ getValidFoundation srcPile g = (Ok v, g) ∧ v ≠ -1
        ∧ destPile = destination "foundation" v)
  ∨ (∃ a, type srcPile = "cascade"
          ∧ getValidFoundation srcPile g = (Ok (-1), g)
          ∧ getFirstAvailableOpen g = (Ok a, g) ∧ a ≠ -1
          ∧ destPile = destination "open" a).

(** The arguments the constructor goes on with: a finite number between 1
    and 52, whole or not. *)
Definition accepted (x : number) : bool :=
  match x with
  | Num q => Qle_bool 1 q && Qle_bool q 52
  | NaN | Infinity _ => false
  end.

(** ** The foundation lookup as the specification words it *)

(** A foundation pile takes the card [c] when it is empty and [c] has rank
    1, or when its top card has the suit of [c] and the rank just below. *)
Definition takes (f : Pile) (c : Card) : bool :=
  match f with
  | [] => bool_decide (value c = 1)
  | _ =>
      match top f with
      | Some (Some t) => bool_decide (suit t = suit c) && bool_decide (value t = value c - 1)
      | _ => false
      end
  end.

(** The index of the first of the 4 foundation piles that takes [c], and -1
    when none does. *)
Definition first_taking (piles : list Pile) (c : Card) : Z :=
  match list_find (λ f, takes f c) (take 4 piles) with
  | Some (i, _) => Z.of_nat i
  | None => -1
  end.

(** ** Sample inputs *)

(** A random source whose every draw is 0: [shuffle] then swaps each
    position with the first one. *)
Definition zero_source : RandomSource :=
  {| random := λ _, 0%Q;
     random_range := λ _, conj (Qle_refl 0) (eq_refl : (0 < 1)%Q) |}.

(** The game dealt from that source into four open and four cascade
    piles. *)
Definition fresh_4_4 : FreecellGame :=
  match constructor zero_source (Num 4) (Num 4) with
  | inr g => g
  | inl _ => mkGame [] [] []
  end.

(** A small position with room to move: two free cells, an empty cascade
    pile, and the run 7 of spades, 6 of hearts, 5 of spades. *)
Definition sample_game : FreecellGame :=
  {| foundation := [[]; []; []; []];
     open := [[]; [Some (mkCard 9 clubs)]; []];
     cascade := [[Some (mkCard 7 spades); Some (mkCard 6 hearts); Some (mkCard 5 spades)];
                 [];
                 [Some (mkCard 13 diamonds); Some (mkCard 8 diamonds)];
                 [Some (mkCard 6 diamonds)]] |}.

(** The same cascade piles with the only free cell taken. *)
Definition tight_game : FreecellGame :=
  {| foundation := [[]; []; []; []];
     open := [[Some (mkCard 9 clubs)]];
     cascade := cascade sample_game |}.

(** The fresh game after its ace of clubs, on top of the first cascade pile,
    went to the second foundation pile. *)
Definition ace_on_second_foundation : FreecellGame :=
  (executeMove (mkRef "cascade" 0 12) (mkRef "foundation" 1 0) fresh_4_4).2.

(** [getFoundation], [getOpen] and [getCascade]: a new array holding a copy
    [p.slice()] of every pile. *)
Definition getFoundation : M (list Pile) :=
  gets (λ g, (λ p, slice_from p 0) <$> foundation g).
Definition getOpen : M (list Pile) :=
  gets (λ g, (λ p, slice_from p 0) <$> open g).
Definition getCascade : M (list Pile) :=
  gets (λ g, (λ p, slice_from p 0) <$> cascade g).

(** ** Notions used by the further properties *)

(** The test of [getFirstAvailableOpen] at index [j]. *)
Definition open_is_empty (g : FreecellGame) (j : Z) : bool :=
  match at_index (open g) j with
  | Some p => bool_decide (len p = 0)
  | None => false
  end.

(** From one state to a later one of the same game: the three arrays keep
    their numbers of piles, and every foundation pile is what it was with
    entries added on top. *)
Definition evolves (g g' : FreecellGame) : Prop :=
  length (foundation g') = length (foundation g)
  ∧ length (open g') = length (open g)
  ∧ length (cascade g') = length (cascade g)
  ∧ ∀ i f, at_index (foundation g) i = Some f →
           ∃ added, at_index (foundation g') i = Some (f ++ added).

(** A method whose final state is always related by [R] to the state it
    was called on, whether it returns or throws. *)
Definition within (R : FreecellGame → FreecellGame → Prop) {A} (m : M A) : Prop :=
  ∀ g, R g (m g).2.

(** The states that any sequence of calls of the two mutators leads to,
    whatever their arguments. *)
Inductive plays (g0 : FreecellGame) : FreecellGame → Prop :=
  | plays_start : plays g0 g0
  | plays_executeMove g srcPile destPile :
      plays g0 g → plays g0 (executeMove srcPile destPile g).2
  | plays_attemptAutoMove g srcPile :
      plays g0 g → plays g0 (attemptAutoMove srcPile g).2.



(** * Properties *)

(** ** Running the monad *)

Lemma run_bind {A B} (m : M A) (k : A → M B) g :
  (m ≫= k) g = match m g with
               | (Ok a, g') => k a g'
               | (TypeError, g') => (TypeError, g')
               end.
Proof. reflexivity. Qed.

Lemma run_ret {A} (a : A) g : (mret a : M A) g = (Ok a, g).
Proof. reflexivity. Qed.

Lemma run_gets {A} (f : FreecellGame → A) g : gets f g = (Ok (f g), g).
Proof. reflexivity. Qed.

Lemma run_defined_Some {A} (a : A) g : defined (Some a) g = (Ok a, g).
Proof. reflexivity. Qed.

Lemma run_defined_None {A} g : defined (@None A) g = (TypeError, g).
Proof. reflexivity. Qed.

Lemma run_modify (f : FreecellGame → FreecellGame) g : modify f g = (Ok tt, f g).
Proof. reflexivity. Qed.

Lemma run_throw {A} g : @throw A g = (TypeError, g).
Proof. reflexivity. Qed.

(** Comparisons of two string literals, as in [srcPile.type === "open"] once
    the type is known. *)
Ltac decide_kinds :=
  repeat match goal with
    | |- context [bool_decide (?a = ?b :> string)] =>
        let v := eval vm_compute in (bool_decide (a = b)) in
        match v with
        | true => change (bool_decide (a = b)) with true
        | false => change (bool_decide (a = b)) with false
        end
    end;
  cbn [andb orb negb].

(** Evaluation of a method body at a state, as far as the reads go. *)
Ltac mstep :=
  repeat first
    [ rewrite run_bind
    | rewrite run_ret
    | rewrite run_gets
    | rewrite run_modify
    | rewrite run_throw
    | rewrite run_defined_Some
    | rewrite run_defined_None
    | progress unfold this_foundation, this_open, this_cascade, getNumOpen,
        getNumCascade, cascade_card, open_card, set_foundation, set_open,
        set_cascade
    | progress cbn [fst snd foundation open cascade element] ].

(** ** Methods that only read *)

Lemma readonly_run {A} (m : M A) g : readonly m → m g = ((m g).1, g).
Proof. intros H. specialize (H g). destruct (m g); simpl in *; congruence. Qed.

Lemma readonly_ret {A} (a : A) : readonly (mret a).
Proof. intros g. reflexivity. Qed.

Lemma readonly_throw {A} : readonly (@throw A).
Proof. intros g. reflexivity. Qed.

Lemma readonly_gets {A} (f : FreecellGame → A) : readonly (gets f).
Proof. intros g. reflexivity. Qed.

Lemma readonly_defined {A} (o : option A) : readonly (defined o).
Proof. destruct o; intros g; reflexivity. Qed.

Lemma readonly_bind {A B} (m : M A) (k : A → M B) :
  readonly m → (∀ a, readonly (k a)) → readonly (m ≫= k).
Proof.
  intros Hm Hk g. rewrite run_bind, (readonly_run m g Hm).
  destruct (m g).1; [apply Hk | reflexivity].
Qed.

Lemma readonly_for_loop {A} n i (body : Z → M (option A)) (after : M A) :
  (∀ j, readonly (body j)) → readonly after → readonly (for_loop n i body after).
Proof.
  intros Hbody Hafter. revert i.
  induction n as [|n IH]; intros i; simpl; [exact Hafter|].
  apply readonly_bind; [apply Hbody|].
  intros [a|]; [apply readonly_ret | apply IH].
Qed.

Ltac readonly_step :=
  first
    [ apply readonly_ret
    | apply readonly_throw
    | apply readonly_gets
    | apply readonly_defined
    | apply readonly_for_loop; [intros ?|]
    | apply readonly_bind; [|intros ?]
    | match goal with
      | |- readonly (if ?b then _ else _) => destruct b
      | |- readonly (match ?o with Some _ => _ | None => _ end) => destruct o
      end ].

Ltac solve_readonly := repeat readonly_step.

Lemma readonly_cascade_card srcPile : readonly (cascade_card srcPile).
Proof. unfold cascade_card, this_cascade. solve_readonly. Qed.

Lemma readonly_open_card srcPile : readonly (open_card srcPile).
Proof. unfold open_card, this_open. solve_readonly. Qed.

Lemma readonly_getValidFoundation srcPile : readonly (getValidFoundation srcPile).
Proof.
  unfold getValidFoundation, this_foundation.
  repeat first [ apply readonly_cascade_card | apply readonly_open_card | readonly_step ].
Qed.

Lemma readonly_getFirstAvailableOpen : readonly getFirstAvailableOpen.
Proof. unfold getFirstAvailableOpen, getNumOpen, this_open. solve_readonly. Qed.

Lemma readonly_isBuild pileIdx cardIdx : readonly (isBuild pileIdx cardIdx).
Proof. unfold isBuild, this_cascade. solve_readonly. Qed.

Lemma readonly_numCanMove destPileIndex : readonly (_numCanMove destPileIndex).
Proof. unfold _numCanMove, this_cascade. solve_readonly. Qed.

Lemma readonly_isValidMove srcPile destPile : readonly (isValidMove srcPile destPile).
Proof.
  unfold isValidMove, this_cascade, this_open.
  destruct srcPile as [srcPile|], destPile as [destPile|]; try apply readonly_ret.
  repeat first
    [ apply readonly_getValidFoundation
    | apply readonly_getFirstAvailableOpen
    | apply readonly_isBuild
    | apply readonly_numCanMove
    | apply readonly_open_card
    | readonly_step ].
Qed.

(** C9: [isValidMove] is a pure predicate.  Whatever the state and the two
    pile references (present or absent), a call leaves the foundation, open
    and cascade piles exactly as they were, and any number of successive
    calls with the same arguments all give the result of the first one. *)
Theorem isValidMove_pure (srcPile destPile : option PileRef) (g : FreecellGame) (n : nat) :
  (isValidMove srcPile destPile g).2 = g
  ∧ repeatedly n (isValidMove srcPile destPile) g
    = (replicate n (isValidMove srcPile destPile g).1, g).
Proof.
  split; [apply readonly_isValidMove|].
  induction n as [|n IH]; simpl; [reflexivity|].
  rewrite (readonly_run _ g (readonly_isValidMove srcPile destPile)).
  simpl. rewrite IH. reflexivity.
Qed.

(** ** Loops whose body only computes *)

Lemma for_loop_pure {A} n i (body : Z → M (option A)) (f : Z → option A) after a g :
  (∀ j, body j g = (Ok (f j), g)) →
  after g = (Ok a, g) →
  for_loop n i body after g = (Ok (first_return n i f a), g).
Proof.
  intros Hbody Hafter. revert i.
  induction n as [|n IH]; intros i; simpl; [exact Hafter|].
  rewrite run_bind, Hbody. destruct (f i); [reflexivity | apply IH].
Qed.

Lemma isBuild_run g pileIdx cardIdx p :
  at_index (cascade g) pileIdx = Some p →
  isBuild pileIdx cardIdx g
  = (Ok (first_return (Z.to_nat (len p - cardIdx)) cardIdx (isBuild_step p) true), g).
Proof.
  intros Hp. unfold isBuild. mstep. rewrite Hp. mstep.
  apply for_loop_pure; [|reflexivity].
  intros j. unfold isBuild_step.
  destruct (bool_decide (j = len p - 1)); [reflexivity|].
  destruct (negb _); reflexivity.
Qed.

Lemma numCanMove_run g destPileIndex d :
  at_index (cascade g) destPileIndex = Some d →
  _numCanMove destPileIndex g
  = (Ok ((count_empty (open g) + 1)
         * 2 ^ (if bool_decide (len d = 0) then count_empty (cascade g) - 1
                else count_empty (cascade g))), g).
Proof. intros Hd. unfold _numCanMove. mstep. rewrite Hd. mstep. reflexivity. Qed.

Lemma len_nil_iff {A} (l : list A) : len l = 0 ↔ l = [].
Proof. unfold len. destruct l; simpl; split; intros; (done || lia). Qed.

(** ** Moves between cascade piles *)

Lemma isValidMove_cascade_onto_empty g srcPile destPile :
  type srcPile = "cascade" →
  type destPile = "cascade" →
  index srcPile ≠ index destPile →
  at_index (cascade g) (index destPile) = Some [] →
  isValidMove (Some srcPile) (Some destPile) g = (Ok true, g).
Proof.
  intros Hs Hd Hne Hempty. unfold isValidMove. rewrite Hs, Hd.
  rewrite (bool_decide_eq_false_2 (index srcPile = index destPile)) by done.
  decide_kinds. mstep. rewrite Hempty. mstep. reflexivity.
Qed.

Lemma isValidMove_cascade_onto_cards g srcPile destPile s d :
  type srcPile = "cascade" →
  type destPile = "cascade" →
  index srcPile ≠ index destPile →
  at_index (cascade g) (index srcPile) = Some s →
  at_index (cascade g) (index destPile) = Some d →
  d ≠ [] →
  isValidMove (Some srcPile) (Some destPile) g
  = (Ok (bool_decide (len s - cardIndex srcPile
                      ≤ (count_empty (open g) + 1) * 2 ^ count_empty (cascade g))
         && first_return (Z.to_nat (len s - cardIndex srcPile)) (cardIndex srcPile)
              (isBuild_step s) true
         && _isStackable (element (top d))
              (element (at_index s (cardIndex srcPile)))), g).
Proof.
  intros Hs Hd Hne Hsrc Hdst Hnonempty.
  unfold isValidMove. rewrite Hs, Hd.
  rewrite (bool_decide_eq_false_2 (index srcPile = index destPile)) by done.
  decide_kinds. mstep. rewrite Hdst. mstep.
  rewrite (bool_decide_eq_false_2 (len d = 0)) by (rewrite len_nil_iff; done).
  mstep. rewrite Hsrc. mstep.
  rewrite (numCanMove_run _ _ _ Hdst).
  rewrite (bool_decide_eq_false_2 (len d = 0)) by (rewrite len_nil_iff; done).
  set (n := (count_empty (open g) + 1) * 2 ^ count_empty (cascade g)).
  destruct (decide (len s - cardIndex srcPile ≤ n)) as [Hle|Hgt].
  - rewrite (bool_decide_eq_false_2 (len s - cardIndex srcPile > n)) by lia.
    rewrite (bool_decide_eq_true_2 _ Hle).
    rewrite run_bind, (isBuild_run _ _ _ _ Hsrc).
    destruct (first_return _ _ _ _); simpl; [|reflexivity].
    mstep. rewrite Hdst. mstep. rewrite Hsrc. mstep.
    destruct (_isStackable _ _); reflexivity.
  - rewrite (bool_decide_eq_true_2 (len s - cardIndex srcPile > n)) by lia.
    rewrite (bool_decide_eq_false_2 _ Hgt). reflexivity.
Qed.

(** C6: a cascade-to-cascade move between two different piles is valid as
    soon as the destination pile is empty, with no look at the run or at
    [_numCanMove]; when the destination holds cards (and the source pile
    exists) the verdict is the conjunction of the run-length bound, the
    build check and the stackability of the run's first card on the
    destination's top card. *)
Theorem isValidMove_cascade_to_cascade (g : FreecellGame) (srcPile destPile : PileRef) :
  type srcPile = "cascade" →
  type destPile = "cascade" →
  index srcPile ≠ index destPile →
  (at_index (cascade g) (index destPile) = Some [] →
   isValidMove (Some srcPile) (Some destPile) g = (Ok true, g))
  ∧ (∀ s d,
       at_index (cascade g) (index srcPile) = Some s →
       at_index (cascade g) (index destPile) = Some d →
       d ≠ [] →
       ∃ n b,
         _numCanMove (index destPile) g = (Ok n, g)
         ∧ isBuild (index srcPile) (cardIndex srcPile) g = (Ok b, g)
         ∧ isValidMove (Some srcPile) (Some destPile) g
           = (Ok (bool_decide (len s - cardIndex srcPile ≤ n)
                  && b
                  && _isStackable (element (top d))
                       (element (at_index s (cardIndex srcPile)))), g)).
Proof.
  intros Hs Hd Hne. split.
  - by apply isValidMove_cascade_onto_empty.
  - intros s d Hsrc Hdst Hnonempty.
    eexists _, _. split; [apply (numCanMove_run _ _ _ Hdst)|].
    split; [apply (isBuild_run _ _ _ _ Hsrc)|].
    rewrite (bool_decide_eq_false_2 (len d = 0)) by (rewrite len_nil_iff; done).
    by apply isValidMove_cascade_onto_cards.
Qed.

(** ** The supermove bound *)

Lemma foldl_count_empty piles acc :
  foldl (λ sum (c : Pile), if bool_decide (len c = 0) then sum + 1 else sum) acc piles
  = acc + empty_piles piles.
Proof.
  unfold empty_piles. revert acc.
  induction piles as [|p piles IH]; intros acc; simpl; [lia|].
  rewrite IH, filter_cons. destruct (decide _) as [->|Hne]; simpl;
    [lia|].
  rewrite bool_decide_eq_false_2 by (by rewrite len_nil_iff). lia.
Qed.

Lemma count_empty_filter piles : count_empty piles = empty_piles piles.
Proof. unfold count_empty. rewrite foldl_count_empty. lia. Qed.

Lemma empty_piles_app l1 l2 : empty_piles (l1 ++ l2) = empty_piles l1 + empty_piles l2.
Proof. unfold empty_piles. rewrite list.filter_app, length_app. lia. Qed.

Lemma empty_piles_nonneg l : 0 ≤ empty_piles l.
Proof. unfold empty_piles. lia. Qed.

(** Leaving the pile at position [i] out lowers the count exactly when that
    pile is empty. *)
Lemma empty_piles_delete piles (i : nat) p :
  piles !! i = Some p →
  empty_piles (delete i piles)
  = if bool_decide (len p = 0) then empty_piles piles - 1 else empty_piles piles.
Proof.
  intros Hp.
  assert (Hsplit : empty_piles piles
                   = empty_piles (take i piles) + empty_piles [p]
                     + empty_piles (drop (S i) piles)).
  { rewrite <-(take_drop_middle piles i p Hp) at 1.
    change (p :: drop (S i) piles) with ([p] ++ drop (S i) piles).
    rewrite !empty_piles_app. lia. }
  rewrite delete_take_drop, empty_piles_app, Hsplit.
  assert (empty_piles [p] = if bool_decide (len p = 0) then 1 else 0) as ->.
  { unfold empty_piles. rewrite filter_cons. destruct (decide _) as [->|Hne]; simpl.
    - reflexivity.
    - by rewrite bool_decide_eq_false_2 by (by rewrite len_nil_iff). }
  destruct (bool_decide (len p = 0)); lia.
Qed.

(** C5: for a destination that names a cascade pile, [_numCanMove] returns
    (numEmptyOpen + 1) * 2^numEmptyCascade, numEmptyOpen being the number of
    empty open piles and numEmptyCascade the number of empty piles among the
    cascade piles other than the destination; and a cascade-to-cascade move
    onto a non-empty pile is rejected whenever the run, of length
    pile length - cardIndex, is longer than that bound. *)
Theorem numCanMove_supermove_bound (g : FreecellGame) (destPileIndex : Z) (d : Pile) :
  at_index (cascade g) destPileIndex = Some d →
  let bound :=
    (empty_piles (open g) + 1)
    * 2 ^ empty_piles (delete (Z.to_nat destPileIndex) (cascade g)) in
  _numCanMove destPileIndex g = (Ok bound, g)
  ∧ ∀ srcPile destPile s,
      type srcPile = "cascade" →
      type destPile = "cascade" →
      index destPile = destPileIndex →
      index srcPile ≠ destPileIndex →
      at_index (cascade g) (index srcPile) = Some s →
      d ≠ [] →
      len s - cardIndex srcPile > bound →
      isValidMove (Some srcPile) (Some destPile) g = (Ok false, g).
Proof.
  intros Hd bound.
  assert (Hlookup : cascade g !! Z.to_nat destPileIndex = Some d).
  { unfold at_index in Hd. by case_bool_decide. }
  split.
  - rewrite (numCanMove_run _ _ _ Hd). subst bound.
    rewrite (empty_piles_delete _ _ _ Hlookup), !count_empty_filter. reflexivity.
  - intros srcPile destPile s Hs Ht Hi Hne Hsrc Hnonempty Hlong. subst destPileIndex.
    rewrite (isValidMove_cascade_onto_cards g srcPile destPile s d) by done.
    subst bound. rewrite (empty_piles_delete _ _ _ Hlookup) in Hlong.
    rewrite (bool_decide_eq_false_2 (len d = 0)) in Hlong by (rewrite len_nil_iff; done).
    rewrite !count_empty_filter.
    rewrite bool_decide_eq_false_2 by lia. reflexivity.
Qed.

(** ** Moves from an open pile that holds nothing *)

Lemma isStackable_undefined_over underCard : _isStackable underCard undefined = false.
Proof. destruct underCard; reflexivity. Qed.

Lemma getValidFoundation_empty_open_throws g srcPile :
  type srcPile = "open" →
  at_index (open g) (index srcPile) = Some [] →
  getValidFoundation srcPile g = (TypeError, g).
Proof.
  intros Hs Hopen. unfold getValidFoundation. rewrite Hs. decide_kinds.
  cbn [for_loop]. mstep.
  destruct (at_index (foundation g) 0) as [f|]; mstep; [|reflexivity].
  destruct (bool_decide (len f = 0)); mstep.
  - rewrite Hopen. mstep. reflexivity.
  - destruct (top f) as [[t|]|]; mstep; try reflexivity.
    rewrite Hopen. mstep. reflexivity.
Qed.

(** C10: [isValidMove] never asks whether the source open pile holds a card.
    From an empty open pile, a move to another open pile that is empty and a
    move to an empty cascade pile are both reported valid; a move onto a
    cascade pile that holds cards is rejected (by [_isStackable], which sees
    no card to put on top); and whenever a move from an empty open pile is
    rejected, the destination is the same pile, an open pile that is not
    empty, or a cascade pile that is not empty. *)
Theorem isValidMove_from_empty_open (g : FreecellGame) (srcPile destPile : PileRef) :
  type srcPile = "open" →
  at_index (open g) (index srcPile) = Some [] →
  (type destPile = "open" →
   index srcPile ≠ index destPile →
   at_index (open g) (index destPile) = Some [] →
   isValidMove (Some srcPile) (Some destPile) g = (Ok true, g))
  ∧ (type destPile = "cascade" →
     at_index (cascade g) (index destPile) = Some [] →
     isValidMove (Some srcPile) (Some destPile) g = (Ok true, g))
  ∧ (type destPile = "cascade" →
     ∀ d, at_index (cascade g) (index destPile) = Some d →
          d ≠ [] →
          isValidMove (Some srcPile) (Some destPile) g = (Ok false, g))
  ∧ ((isValidMove (Some srcPile) (Some destPile) g).1 = Ok false →
     (type destPile = "open"
      ∧ (index srcPile = index destPile
         ∨ ∃ d, at_index (open g) (index destPile) = Some d ∧ d ≠ []))
     ∨ (type destPile = "cascade"
        ∧ ∃ d, at_index (cascade g) (index destPile) = Some d ∧ d ≠ [])).
Proof.
  intros Hs Hsrc. repeat split.
  - intros Hd Hne Hdst. unfold isValidMove. rewrite Hs, Hd.
    rewrite (bool_decide_eq_false_2 (index srcPile = index destPile)) by done.
    decide_kinds. mstep. rewrite Hdst. mstep. reflexivity.
  - intros Hd Hdst. unfold isValidMove. rewrite Hs, Hd.
    decide_kinds. mstep. rewrite Hdst. mstep. reflexivity.
  - intros Hd d Hdst Hnonempty. unfold isValidMove. rewrite Hs, Hd.
    decide_kinds. mstep. rewrite Hdst. mstep.
    rewrite (bool_decide_eq_false_2 (len d = 0)) by (by rewrite len_nil_iff).
    mstep. rewrite Hsrc. mstep.
    change (element (at_index [] 0)) with undefined.
    rewrite isStackable_undefined_over. reflexivity.
  - unfold isValidMove. rewrite Hs.
    destruct (decide (type destPile = "open")) as [Hd|Hnopen].
    { rewrite Hd.
      destruct (decide (index srcPile = index destPile)) as [|Hne]; [by intros; left; auto|].
      rewrite (bool_decide_eq_false_2 _ Hne). decide_kinds. mstep.
      destruct (at_index (open g) (index destPile)) as [d|]; mstep; [|done].
      case_bool_decide as Hlen; [|done]. intros _. left. split; [done|right].
      exists d. split; [done|]. by rewrite <-len_nil_iff. }
    destruct (decide (type destPile = "cascade")) as [Hd|Hncascade].
    { rewrite Hd. decide_kinds. mstep.
      destruct (at_index (cascade g) (index destPile)) as [d|]; mstep; [|done].
      case_bool_decide as Hlen; [done|]. intros _. right. split; [done|].
      exists d. split; [done|]. by rewrite <-len_nil_iff. }
    rewrite (bool_decide_eq_false_2 ("open" = type destPile)) by done.
    decide_kinds.
    rewrite (bool_decide_eq_false_2 (type destPile = "cascade")) by done.
    rewrite (bool_decide_eq_false_2 (type destPile = "open")) by done.
    case_bool_decide; [|done].
    rewrite run_bind, (getValidFoundation_empty_open_throws g srcPile Hs Hsrc). done.
Qed.

(** ** Kind combinations outside the six cases *)

(** C2 (as the code has it): for a pair of references whose kinds are not
    one of the six combinations, [isValidMove] returns false exactly when the
    source kind is "foundation" or both references have the same kind and
    index; in every other such case, in particular for a kind that is none of
    "foundation", "open" and "cascade", it returns true. *)
Theorem isValidMove_unmatched_kinds (g : FreecellGame) (srcPile destPile : PileRef) :
  enumerated (type srcPile) (type destPile) = false →
  isValidMove (Some srcPile) (Some destPile) g
  = (Ok (negb (bool_decide (type srcPile = type destPile)
               && bool_decide (index srcPile = index destPile)
               || bool_decide (type srcPile = "foundation"))), g).
Proof.
  unfold enumerated, isValidMove. intros Hkinds.
  destruct (bool_decide (type srcPile = type destPile)
            && bool_decide (index srcPile = index destPile)
            || bool_decide (type srcPile = "foundation")); [reflexivity|].
  destruct (bool_decide (type srcPile = "cascade")) eqn:Hc;
    destruct (bool_decide (type srcPile = "open")) eqn:Ho;
    destruct (bool_decide (type destPile = "open"));
    destruct (bool_decide (type destPile = "cascade"));
    destruct (bool_decide (type destPile = "foundation"));
    try discriminate Hkinds; reflexivity.
Qed.

(** ** The arguments of the constructor *)

Lemma deal_length numCascade i deck cascade :
  length (deal numCascade i deck cascade) = length cascade.
Proof.
  revert i cascade. induction deck as [|c deck IH]; intros i cascade; simpl; [done|].
  by rewrite IH, length_alter.
Qed.

Lemma accepted_range q :
  accepted (Num q) = true → (1 <= q)%Q ∧ (q <= 52)%Q.
Proof.
  unfold accepted. intros [H1 H2]%andb_prop.
  by rewrite !Qle_bool_iff in *.
Qed.

Lemma truncate_accepted q :
  (1 <= q)%Q → truncate q = Qfloor q ∧ 1 ≤ Qfloor q.
Proof.
  intros H1. split.
  - unfold truncate.
    assert (Qle_bool 0 q = true) as ->; [|done].
    apply Qle_bool_iff. by apply Qle_trans with 1%Q.
  - change 1 with (Qfloor 1). by apply Qfloor_resp_le.
Qed.

Ltac range_tests :=
  cbn [parseInt less_than greater_than];
  change (inject_Z 1) with 1%Q; change (inject_Z 52) with 52%Q.

Lemma constructor_rejects_open rnd numOpen numCascade :
  accepted numOpen = false →
  constructor rnd numOpen numCascade
  = inl (Thrown "Invalid number of open piles: " numOpen).
Proof.
  unfold constructor, accepted.
  destruct numOpen as [|neg|q]; range_tests; try done.
  intros [H|H]%andb_false_iff; rewrite H; cbn [negb orb]; [done|].
  by rewrite orb_true_r.
Qed.

Lemma constructor_rejects_cascade rnd numOpen numCascade :
  accepted numOpen = true →
  accepted numCascade = false →
  constructor rnd numOpen numCascade
  = inl (Thrown "Invalid number of cascade piles: " numCascade).
Proof.
  unfold constructor, accepted.
  destruct numOpen as [|neg|q]; range_tests; try done.
  intros [-> ->]%andb_prop. cbn [negb orb].
  destruct numCascade as [|neg|q']; range_tests; try done.
  intros [H|H]%andb_false_iff; rewrite H; cbn [negb orb]; [done|].
  by rewrite orb_true_r.
Qed.

Lemma constructor_accepts rnd qOpen qCascade :
  accepted (Num qOpen) = true →
  accepted (Num qCascade) = true →
  ∃ g, constructor rnd (Num qOpen) (Num qCascade) = inr g
       ∧ len (foundation g) = 4
       ∧ len (open g) = Qfloor qOpen
       ∧ len (cascade g) = Qfloor qCascade.
Proof.
  intros Ho Hc.
  destruct (accepted_range _ Ho) as [Ho1 _], (accepted_range _ Hc) as [Hc1 _].
  destruct (truncate_accepted _ Ho1) as [Hto ?], (truncate_accepted _ Hc1) as [Htc ?].
  unfold constructor, accepted in *. range_tests.
  apply andb_prop in Ho as [-> ->], Hc as [-> ->]. cbn [negb orb].
  eexists. split; [reflexivity|]. unfold len. cbn [foundation open cascade].
  rewrite deal_length, !length_replicate, Hto, Htc. lia.
Qed.

(** C3 (as the code has it): construction throws the message naming
    [numOpen] when that argument is not a finite number between 1 and 52,
    and otherwise the message naming [numCascade] when that one is not; no
    game is created in either case.  Every whole number outside 1..52 is
    rejected this way.  Two arguments between 1 and 52 are accepted, whole or
    not: the game has as many open and cascade piles as the arguments
    rounded down. *)
Theorem constructor_argument_check (rnd : RandomSource) (numOpen numCascade : number) :
  (accepted numOpen = false →
   constructor rnd numOpen numCascade
   = inl (Thrown "Invalid number of open piles: " numOpen))
  ∧ (accepted numOpen = true →
     accepted numCascade = false →
     constructor rnd numOpen numCascade
     = inl (Thrown "Invalid number of cascade piles: " numCascade))
  ∧ (∀ z : Z, ¬ (1 ≤ z ≤ 52) → accepted (Num (inject_Z z)) = false)
  ∧ (∀ qOpen qCascade,
       numOpen = Num qOpen →
       numCascade = Num qCascade →
       accepted numOpen = true →
       accepted numCascade = true →
       ∃ g, constructor rnd numOpen numCascade = inr g
            ∧ len (foundation g) = 4
            ∧ len (open g) = Qfloor qOpen
            ∧ len (cascade g) = Qfloor qCascade).
Proof.
  split; [apply constructor_rejects_open|].
  split; [apply constructor_rejects_cascade|].
  split.
  - intros z Hz. unfold accepted. apply andb_false_iff.
    destruct (decide (1 ≤ z)) as [H1|H1]; [right|left].
    + apply not_true_is_false. rewrite Qle_bool_iff.
      change 52%Q with (inject_Z 52). rewrite <-Zle_Qle. lia.
    + apply not_true_is_false. rewrite Qle_bool_iff.
      change 1%Q with (inject_Z 1). rewrite <-Zle_Qle. lia.
  - intros qOpen qCascade -> ->. apply constructor_accepts.
Qed.

(** C3, the claim as written fails: 3.5 is not a whole number, yet
    construction with [numOpen] = 3.5 succeeds, with 3 open piles. *)
Lemma constructor_accepts_three_and_a_half :
  (∀ z : Z, ¬ (inject_Z z == 7 # 2)%Q)
  ∧ ∃ g, constructor zero_source (Num (7 # 2)) (Num 8) = inr g
         ∧ len (open g) = 3
         ∧ len (cascade g) = 8.
Proof.
  split.
  - intros z. unfold Qeq. simpl. lia.
  - eexists. split; [vm_compute; reflexivity|]. split; reflexivity.
Qed.

(** ** Arrays: reading after a store, the last element *)

Lemma at_index_lookup {A} (a : list A) i x :
  at_index a i = Some x → 0 ≤ i ∧ a !! Z.to_nat i = Some x.
Proof. unfold at_index. by case_bool_decide. Qed.

Lemma at_index_store_eq {A} (a : list A) i x y :
  at_index a i = Some y → at_index (store a i x) i = Some x.
Proof.
  intros [Hi Hy]%at_index_lookup. unfold at_index, store.
  rewrite !bool_decide_eq_true_2 by done.
  apply list_lookup_insert_eq. by eapply lookup_lt_Some.
Qed.

Lemma at_index_store_ne {A} (a : list A) i j x :
  i ≠ j → at_index (store a i x) j = at_index a j.
Proof.
  intros Hne. unfold at_index, store.
  repeat case_bool_decide; try done.
  apply list_lookup_insert_ne. lia.
Qed.

Lemma at_index_store_defined {A} (a : list A) i j x y :
  at_index a j = Some y → ∃ y', at_index (store a i x) j = Some y'.
Proof.
  intros Hy. destruct (decide (i = j)) as [->|Hne].
  - exists x. by eapply at_index_store_eq.
  - exists y. by rewrite at_index_store_ne.
Qed.

Lemma top_snoc {A} (p : list A) x : top (p ++ [x]) = Some x.
Proof.
  unfold top, at_index, len. rewrite length_app. simpl.
  rewrite bool_decide_eq_true_2 by lia.
  replace (Z.to_nat (Z.of_nat (length p + 1) - 1)) with (length p) by lia.
  by rewrite lookup_app_r, Nat.sub_diag.
Qed.

Lemma top_nil {A} : top (@nil A) = None.
Proof. reflexivity. Qed.

(** In range, [slice] is [take] and [drop]. *)
Lemma slice_in_range {A} (a : list A) k :
  0 ≤ k ≤ len a →
  slice_to a k = take (Z.to_nat k) a ∧ slice_from a k = drop (Z.to_nat k) a.
Proof.
  intros Hk. unfold slice_to, slice_from, relative_index.
  rewrite bool_decide_eq_false_2 by lia.
  by rewrite Z.min_l by lia.
Qed.

(** So it is for every index that is not negative: past the end, [slice]
    clamps as [take] and [drop] do. *)
Lemma slice_nonneg {A} (a : list A) k :
  0 ≤ k →
  slice_to a k = take (Z.to_nat k) a ∧ slice_from a k = drop (Z.to_nat k) a.
Proof.
  intros Hk. destruct (decide (k ≤ len a)) as [Hle|Hgt].
  - apply slice_in_range. lia.
  - unfold slice_to, slice_from, relative_index.
    rewrite bool_decide_eq_false_2 by lia.
    rewrite Z.min_r by lia. unfold len in *. rewrite Nat2Z.id.
    by rewrite !take_ge, !drop_ge by lia.
Qed.

Lemma slice_partition {A} (a : list A) k : slice_to a k ++ slice_from a k = a.
Proof. apply take_drop. Qed.

(** ** What the mutators do at a state *)

Lemma pop_cascade_run g i p :
  at_index (cascade g) i = Some p →
  pop_cascade i g
  = (Ok (element (top p)),
     mkGame (foundation g) (open g) (store (cascade g) i (removelast p))).
Proof. intros Hp. unfold pop_cascade. mstep. rewrite Hp. mstep. reflexivity. Qed.

Lemma pop_cascade_throw g i :
  at_index (cascade g) i = None → pop_cascade i g = (TypeError, g).
Proof. intros Hp. unfold pop_cascade. mstep. rewrite Hp. mstep. reflexivity. Qed.

Lemma pop_open_run g i p :
  at_index (open g) i = Some p →
  pop_open i g
  = (Ok (element (top p)),
     mkGame (foundation g) (store (open g) i (removelast p)) (cascade g)).
Proof. intros Hp. unfold pop_open. mstep. rewrite Hp. mstep. reflexivity. Qed.

Lemma pop_open_throw g i :
  at_index (open g) i = None → pop_open i g = (TypeError, g).
Proof. intros Hp. unfold pop_open. mstep. rewrite Hp. mstep. reflexivity. Qed.

Lemma push_foundation_run g i p x :
  at_index (foundation g) i = Some p →
  push_foundation i x g
  = (Ok tt, mkGame (store (foundation g) i (p ++ [x])) (open g) (cascade g)).
Proof. intros Hp. unfold push_foundation. mstep. rewrite Hp. mstep. reflexivity. Qed.

Lemma push_open_run g i p x :
  at_index (open g) i = Some p →
  push_open i x g
  = (Ok tt, mkGame (foundation g) (store (open g) i (p ++ [x])) (cascade g)).
Proof. intros Hp. unfold push_open. mstep. rewrite Hp. mstep. reflexivity. Qed.

Lemma push_cascade_run g i p x :
  at_index (cascade g) i = Some p →
  push_cascade i x g
  = (Ok tt, mkGame (foundation g) (open g) (store (cascade g) i (p ++ [x]))).
Proof. intros Hp. unfold push_cascade. mstep. rewrite Hp. mstep. reflexivity. Qed.

(** A move that [isValidMove] accepts never has the same pile at both
    ends. *)
Lemma isValidMove_true_distinct g srcPile destPile :
  (isValidMove (Some srcPile) (Some destPile) g).1 = Ok true →
  type srcPile = type destPile → index srcPile ≠ index destPile.
Proof.
  unfold isValidMove. intros Hvalid Htype Hindex.
  rewrite (bool_decide_eq_true_2 _ Htype), (bool_decide_eq_true_2 _ Hindex) in Hvalid.
  discriminate Hvalid.
Qed.

(** ** [executeMove], case by case *)

Ltac run_executeMove Hs Hd :=
  unfold executeMove; rewrite Hs, Hd; decide_kinds; mstep.

Lemma executeMove_cascade_open g srcPile destPile ps od :
  type srcPile = "cascade" → type destPile = "open" →
  at_index (cascade g) (index srcPile) = Some ps →
  at_index (open g) (index destPile) = Some od →
  executeMove srcPile destPile g
  = (Ok tt, mkGame (foundation g)
              (store (open g) (index destPile) (od ++ [element (top ps)]))
              (store (cascade g) (index srcPile) (removelast ps))).
Proof.
  intros Hs Hd Hsrc Hdst. run_executeMove Hs Hd. rewrite Hdst. mstep.
  rewrite (pop_cascade_run _ _ _ Hsrc).
  rewrite (push_open_run _ _ od) by done. reflexivity.
Qed.

Lemma executeMove_cascade_foundation g srcPile destPile ps fd :
  type srcPile = "cascade" → type destPile = "foundation" →
  at_index (cascade g) (index srcPile) = Some ps →
  at_index (foundation g) (index destPile) = Some fd →
  executeMove srcPile destPile g
  = (Ok tt, mkGame (store (foundation g) (index destPile) (fd ++ [element (top ps)]))
              (open g)
              (store (cascade g) (index srcPile) (removelast ps))).
Proof.
  intros Hs Hd Hsrc Hdst. run_executeMove Hs Hd. rewrite Hdst. mstep.
  rewrite (pop_cascade_run _ _ _ Hsrc).
  rewrite (push_foundation_run _ _ fd) by done. reflexivity.
Qed.

Lemma executeMove_cascade_cascade g srcPile destPile ps pd :
  type srcPile = "cascade" → type destPile = "cascade" →
  at_index (cascade g) (index srcPile) = Some ps →
  at_index (store (cascade g) (index srcPile) (slice_to ps (cardIndex srcPile)))
    (index destPile) = Some pd →
  executeMove srcPile destPile g
  = (Ok tt, mkGame (foundation g) (open g)
              (store (store (cascade g) (index srcPile)
                        (slice_to ps (cardIndex srcPile)))
                 (index destPile) (pd ++ slice_from ps (cardIndex srcPile)))).
Proof.
  intros Hs Hd Hsrc Hdst. run_executeMove Hs Hd.
  repeat (rewrite Hsrc; mstep). rewrite Hdst. mstep. reflexivity.
Qed.

Lemma executeMove_open_open g srcPile destPile ps od :
  type srcPile = "open" → type destPile = "open" →
  at_index (open g) (index srcPile) = Some ps →
  at_index (store (open g) (index srcPile) (removelast ps)) (index destPile) = Some od →
  executeMove srcPile destPile g
  = (Ok tt, mkGame (foundation g)
              (store (store (open g) (index srcPile) (removelast ps))
                 (index destPile) (od ++ [element (top ps)]))
              (cascade g)).
Proof.
  intros Hs Hd Hsrc Hdst. run_executeMove Hs Hd.
  destruct (at_index_store_defined (open g) (index srcPile) (index srcPile)
              (removelast ps) ps Hsrc) as [? _].
  destruct (at_index (open g) (index destPile)) as [od0|] eqn:Hdst0.
  - mstep. rewrite (pop_open_run _ _ _ Hsrc).
    rewrite (push_open_run _ _ od) by done. reflexivity.
  - exfalso. destruct (decide (index srcPile = index destPile)) as [Heq|Hne].
    + rewrite Heq in Hsrc. congruence.
    + rewrite at_index_store_ne in Hdst by done. congruence.
Qed.

Lemma executeMove_open_cascade g srcPile destPile ps pd :
  type srcPile = "open" → type destPile = "cascade" →
  at_index (open g) (index srcPile) = Some ps →
  at_index (cascade g) (index destPile) = Some pd →
  executeMove srcPile destPile g
  = (Ok tt, mkGame (foundation g)
              (store (open g) (index srcPile) (removelast ps))
              (store (cascade g) (index destPile) (pd ++ [element (top ps)]))).
Proof.
  intros Hs Hd Hsrc Hdst. run_executeMove Hs Hd. rewrite Hdst. mstep.
  rewrite (pop_open_run _ _ _ Hsrc).
  rewrite (push_cascade_run _ _ pd) by done. reflexivity.
Qed.

Lemma executeMove_open_foundation g srcPile destPile ps fd :
  type srcPile = "open" → type destPile = "foundation" →
  at_index (open g) (index srcPile) = Some ps →
  at_index (foundation g) (index destPile) = Some fd →
  executeMove srcPile destPile g
  = (Ok tt, mkGame (store (foundation g) (index destPile) (fd ++ [element (top ps)]))
              (store (open g) (index srcPile) (removelast ps))
              (cascade g)).
Proof.
  intros Hs Hd Hsrc Hdst. run_executeMove Hs Hd. rewrite Hdst. mstep.
  rewrite (pop_open_run _ _ _ Hsrc).
  rewrite (push_foundation_run _ _ fd) by done. reflexivity.
Qed.

Lemma pop_snoc (p : Pile) x :
  removelast (p ++ [x]) = p ∧ element (top (p ++ [x])) = x.
Proof. by rewrite removelast_last, top_snoc. Qed.

(** C7 (as the code has it): what [executeMove] does with a move that
    [isValidMove] accepted, when the two references name piles that exist
    and the source pile holds the card spoken of.  From a cascade pile whose
    top card is [x], a move to an open or to a foundation pile takes exactly
    [x] off the source and puts it on top of the destination; a move to a
    cascade pile, for a [cardIndex] that is not negative, takes the cards
    from [cardIndex] to the end off the source and puts them, in the same
    order, on top of the destination.  From an open pile holding the single
    card [c], the move empties the pile and puts [c] on top of the
    destination.  Piles other than the two are left alone. *)
Theorem executeMove_relocates (g : FreecellGame) (srcPile destPile : PileRef) :
  isValidMove (Some srcPile) (Some destPile) g = (Ok true, g) →
  (type srcPile = "cascade" →
   (type destPile = "open" → ∀ ps x od,
      at_index (cascade g) (index srcPile) = Some (ps ++ [x]) →
      at_index (open g) (index destPile) = Some od →
      executeMove srcPile destPile g
      = (Ok tt, mkGame (foundation g)
                  (store (open g) (index destPile) (od ++ [x]))
                  (store (cascade g) (index srcPile) ps)))
   ∧ (type destPile = "foundation" → ∀ ps x fd,
        at_index (cascade g) (index srcPile) = Some (ps ++ [x]) →
        at_index (foundation g) (index destPile) = Some fd →
        executeMove srcPile destPile g
        = (Ok tt, mkGame (store (foundation g) (index destPile) (fd ++ [x]))
                    (open g)
                    (store (cascade g) (index srcPile) ps)))
   ∧ (type destPile = "cascade" → ∀ ps pd,
        at_index (cascade g) (index srcPile) = Some ps →
        at_index (cascade g) (index destPile) = Some pd →
        0 ≤ cardIndex srcPile →
        executeMove srcPile destPile g
        = (Ok tt, mkGame (foundation g) (open g)
                    (store (store (cascade g) (index srcPile)
                              (take (Z.to_nat (cardIndex srcPile)) ps))
                       (index destPile)
                       (pd ++ drop (Z.to_nat (cardIndex srcPile)) ps)))))
  ∧ (type srcPile = "open" → ∀ c,
     at_index (open g) (index srcPile) = Some [c] →
     (type destPile = "open" → ∀ od,
        at_index (open g) (index destPile) = Some od →
        executeMove srcPile destPile g
        = (Ok tt, mkGame (foundation g)
                    (store (store (open g) (index srcPile) [])
                       (index destPile) (od ++ [c]))
                    (cascade g)))
     ∧ (type destPile = "cascade" → ∀ pd,
          at_index (cascade g) (index destPile) = Some pd →
          executeMove srcPile destPile g
          = (Ok tt, mkGame (foundation g)
                      (store (open g) (index srcPile) [])
                      (store (cascade g) (index destPile) (pd ++ [c]))))
     ∧ (type destPile = "foundation" → ∀ fd,
          at_index (foundation g) (index destPile) = Some fd →
          executeMove srcPile destPile g
          = (Ok tt, mkGame (store (foundation g) (index destPile) (fd ++ [c]))
                      (store (open g) (index srcPile) [])
                      (cascade g)))).
Proof.
  intros Hvalid.
  assert (Hdistinct : type srcPile = type destPile → index srcPile ≠ index destPile).
  { apply (isValidMove_true_distinct g). by rewrite Hvalid. }
  split.
  - intros Hs. repeat split.
    + intros Hd ps x od Hsrc Hdst.
      rewrite (executeMove_cascade_open g srcPile destPile _ od Hs Hd Hsrc Hdst).
      by destruct (pop_snoc ps x) as [-> ->].
    + intros Hd ps x fd Hsrc Hdst.
      rewrite (executeMove_cascade_foundation g srcPile destPile _ fd Hs Hd Hsrc Hdst).
      by destruct (pop_snoc ps x) as [-> ->].
    + intros Hd ps pd Hsrc Hdst Hrange.
      destruct (slice_nonneg ps _ Hrange) as [Hto Hfrom].
      rewrite (executeMove_cascade_cascade g srcPile destPile ps pd Hs Hd Hsrc).
      * by rewrite Hto, Hfrom.
      * rewrite at_index_store_ne; [done|]. apply Hdistinct. congruence.
  - intros Hs c Hsrc. repeat split.
    + intros Hd od Hdst.
      rewrite (executeMove_open_open g srcPile destPile [c] od Hs Hd Hsrc).
      * reflexivity.
      * rewrite at_index_store_ne; [done|]. apply Hdistinct. congruence.
    + intros Hd pd Hdst.
      by rewrite (executeMove_open_cascade g srcPile destPile [c] pd Hs Hd Hsrc Hdst).
    + intros Hd fd Hdst.
      by rewrite (executeMove_open_foundation g srcPile destPile [c] fd Hs Hd Hsrc Hdst).
Qed.

(** ** Counting cards *)

Lemma tally_app c l1 l2 : tally c (l1 ++ l2) = (tally c l1 + tally c l2)%nat.
Proof. unfold tally. by rewrite omap_app, count_occ_app. Qed.

Lemma game_tally_cards c g : game_tally c g = count_occ Card_eq_dec (cards g) c.
Proof. reflexivity. Qed.

Lemma game_tally_split c g :
  game_tally c g
  = (piles_tally c (foundation g) + piles_tally c (open g)
     + piles_tally c (cascade g))%nat.
Proof. unfold game_tally, contents, piles_tally. rewrite !tally_app. lia. Qed.

Lemma piles_tally_app c a1 a2 :
  piles_tally c (a1 ++ a2) = (piles_tally c a1 + piles_tally c a2)%nat.
Proof. unfold piles_tally. by rewrite concat_app, tally_app. Qed.

Lemma piles_tally_cons c p a :
  piles_tally c (p :: a) = (tally c p + piles_tally c a)%nat.
Proof. unfold piles_tally. simpl. by rewrite tally_app. Qed.

Lemma piles_tally_insert c (a : list Pile) (n : nat) p q :
  a !! n = Some p →
  (piles_tally c (<[n := q]> a) + tally c p = piles_tally c a + tally c q)%nat.
Proof.
  intros Hp.
  rewrite insert_take_drop by (by eapply lookup_lt_Some).
  rewrite <-(take_drop_middle a n p Hp) at 3.
  rewrite !piles_tally_app, !piles_tally_cons. lia.
Qed.

Lemma piles_tally_store c (a : list Pile) i p q :
  at_index a i = Some p →
  (piles_tally c (store a i q) + tally c p = piles_tally c a + tally c q)%nat.
Proof.
  intros [Hi Hp]%at_index_lookup. unfold store.
  rewrite bool_decide_eq_true_2 by done. by apply piles_tally_insert.
Qed.

Lemma tally_pop c (p : Pile) :
  (tally c (removelast p) + tally c [element (top p)] = tally c p)%nat.
Proof.
  induction p as [|y p' _] using rev_ind; [reflexivity|].
  destruct (pop_snoc p' y) as [-> ->]. by rewrite tally_app.
Qed.

Lemma tally_slice c (p : Pile) k :
  (tally c (slice_to p k) + tally c (slice_from p k) = tally c p)%nat.
Proof. by rewrite <-tally_app, slice_partition. Qed.

(** ** [executeMove] keeps every card *)

(** The only way for [executeMove] to lose cards is a run detached from a
    cascade pile with no cascade pile to receive it. *)
Lemma executeMove_conserving c g srcPile destPile :
  (type srcPile = "cascade" → type destPile = "cascade" →
   at_index (cascade g) (index srcPile) ≠ None →
   at_index (cascade g) (index destPile) ≠ None) →
  conserving c g (executeMove srcPile destPile g).
Proof.
  intros Hreceiver. unfold conserving.
  destruct (decide (type srcPile = "cascade")) as [Hs|Hs].
  - destruct (decide (type destPile = "open")) as [Hd|Hd1];
      [|destruct (decide (type destPile = "cascade")) as [Hd|Hd2];
        [|destruct (decide (type destPile = "foundation")) as [Hd|Hd3]]].
    + destruct (at_index (open g) (index destPile)) as [od|] eqn:Hdst;
        [|run_executeMove Hs Hd; rewrite Hdst; mstep; done].
      destruct (at_index (cascade g) (index srcPile)) as [ps|] eqn:Hsrc;
        [|run_executeMove Hs Hd; rewrite Hdst; mstep;
          rewrite (pop_cascade_throw _ _ Hsrc); done].
      rewrite (executeMove_cascade_open g srcPile destPile ps od) by done.
      split; [|done]. rewrite !game_tally_split. cbn [snd foundation open cascade].
      pose proof (piles_tally_store c _ _ _ (od ++ [element (top ps)]) Hdst).
      pose proof (piles_tally_store c _ _ _ (removelast ps) Hsrc).
      pose proof (tally_pop c ps). rewrite tally_app in *. lia.
    + destruct (at_index (cascade g) (index srcPile)) as [ps|] eqn:Hsrc;
        [|run_executeMove Hs Hd; rewrite Hsrc; mstep; done].
      specialize (Hreceiver Hs Hd ltac:(done)).
      destruct (at_index (cascade g) (index destPile)) as [pd0|] eqn:Hdst0; [|done].
      destruct (at_index_store_defined (cascade g) (index srcPile) (index destPile)
                  (slice_to ps (cardIndex srcPile)) pd0 Hdst0) as [pd Hdst].
      rewrite (executeMove_cascade_cascade g srcPile destPile ps pd) by done.
      split; [|done]. rewrite !game_tally_split. cbn [snd foundation open cascade].
      pose proof (piles_tally_store c _ _ _ (slice_to ps (cardIndex srcPile)) Hsrc).
      pose proof (piles_tally_store c _ _ _
                    (pd ++ slice_from ps (cardIndex srcPile)) Hdst).
      pose proof (tally_slice c ps (cardIndex srcPile)).
      rewrite tally_app in *. lia.
    + destruct (at_index (foundation g) (index destPile)) as [fd|] eqn:Hdst;
        [|run_executeMove Hs Hd; rewrite Hdst; mstep; done].
      destruct (at_index (cascade g) (index srcPile)) as [ps|] eqn:Hsrc;
        [|run_executeMove Hs Hd; rewrite Hdst; mstep;
          rewrite (pop_cascade_throw _ _ Hsrc); done].
      rewrite (executeMove_cascade_foundation g srcPile destPile ps fd) by done.
      split; [|done]. rewrite !game_tally_split. cbn [snd foundation open cascade].
      pose proof (piles_tally_store c _ _ _ (fd ++ [element (top ps)]) Hdst).
      pose proof (piles_tally_store c _ _ _ (removelast ps) Hsrc).
      pose proof (tally_pop c ps). rewrite tally_app in *. lia.
    + unfold executeMove. rewrite Hs.
      rewrite !(bool_decide_eq_false_2 (type destPile = _)) by done.
      decide_kinds. done.
  - destruct (decide (type srcPile = "open")) as [Hs'|Hs'];
      [|unfold executeMove;
        rewrite !(bool_decide_eq_false_2 (type srcPile = _)) by done; done].
    clear Hs Hreceiver.
    destruct (decide (type destPile = "open")) as [Hd|Hd1];
      [|destruct (decide (type destPile = "cascade")) as [Hd|Hd2];
        [|destruct (decide (type destPile = "foundation")) as [Hd|Hd3]]].
    + destruct (at_index (open g) (index destPile)) as [od0|] eqn:Hdst0;
        [|run_executeMove Hs' Hd; rewrite Hdst0; mstep; done].
      destruct (at_index (open g) (index srcPile)) as [ps|] eqn:Hsrc;
        [|run_executeMove Hs' Hd; rewrite Hdst0; mstep;
          rewrite (pop_open_throw _ _ Hsrc); done].
      destruct (at_index_store_defined (open g) (index srcPile) (index destPile)
                  (removelast ps) od0 Hdst0) as [od Hdst].
      rewrite (executeMove_open_open g srcPile destPile ps od) by done.
      split; [|done]. rewrite !game_tally_split. cbn [snd foundation open cascade].
      pose proof (piles_tally_store c _ _ _ (removelast ps) Hsrc).
      pose proof (piles_tally_store c _ _ _ (od ++ [element (top ps)]) Hdst).
      pose proof (tally_pop c ps). rewrite tally_app in *. lia.
    + destruct (at_index (cascade g) (index destPile)) as [pd|] eqn:Hdst;
        [|run_executeMove Hs' Hd; rewrite Hdst; mstep; done].
      destruct (at_index (open g) (index srcPile)) as [ps|] eqn:Hsrc;
        [|run_executeMove Hs' Hd; rewrite Hdst; mstep;
          rewrite (pop_open_throw _ _ Hsrc); done].
      rewrite (executeMove_open_cascade g srcPile destPile ps pd) by done.
      split; [|done]. rewrite !game_tally_split. cbn [snd foundation open cascade].
      pose proof (piles_tally_store c _ _ _ (pd ++ [element (top ps)]) Hdst).
      pose proof (piles_tally_store c _ _ _ (removelast ps) Hsrc).
      pose proof (tally_pop c ps). rewrite tally_app in *. lia.
    + destruct (at_index (foundation g) (index destPile)) as [fd|] eqn:Hdst;
        [|run_executeMove Hs' Hd; rewrite Hdst; mstep; done].
      destruct (at_index (open g) (index srcPile)) as [ps|] eqn:Hsrc;
        [|run_executeMove Hs' Hd; rewrite Hdst; mstep;
          rewrite (pop_open_throw _ _ Hsrc); done].
      rewrite (executeMove_open_foundation g srcPile destPile ps fd) by done.
      split; [|done]. rewrite !game_tally_split. cbn [snd foundation open cascade].
      pose proof (piles_tally_store c _ _ _ (fd ++ [element (top ps)]) Hdst).
      pose proof (piles_tally_store c _ _ _ (removelast ps) Hsrc).
      pose proof (tally_pop c ps). rewrite tally_app in *. lia.
    + unfold executeMove. rewrite Hs'.
      rewrite !(bool_decide_eq_false_2 (type destPile = _)) by done.
      decide_kinds. done.
Qed.

(** ** [attemptAutoMove] *)

Lemma run_readonly {A B} (m : M A) (k : A → M B) g :
  readonly m →
  (m ≫= k) g = match (m g).1 with
               | Ok a => k a g
               | TypeError => (TypeError, g)
               end.
Proof. intros Hm. rewrite run_bind, (readonly_run m g Hm). reflexivity. Qed.

Lemma attemptAutoMove_cascade g srcPile :
  type srcPile = "cascade" →
  attemptAutoMove srcPile g
  = match (getValidFoundation srcPile g).1 with
    | TypeError => (TypeError, g)
    | Ok v =>
        if bool_decide (v ≠ -1)
        then then_true (executeMove srcPile (destination "foundation" v) g)
        else
          match (getFirstAvailableOpen g).1 with
          | TypeError => (TypeError, g)
          | Ok a =>
              if bool_decide (a ≠ -1)
              then then_true (executeMove srcPile (destination "open" a) g)
              else (Ok false, g)
          end
    end.
Proof.
  intros Hs. unfold attemptAutoMove. rewrite Hs. decide_kinds.
  rewrite run_bind, (run_readonly (getValidFoundation srcPile))
    by apply readonly_getValidFoundation.
  destruct (getValidFoundation srcPile g).1 as [v|] eqn:Hv; [|reflexivity].
  destruct (bool_decide (v ≠ -1)).
  - rewrite (run_readonly (getValidFoundation srcPile))
      by apply readonly_getValidFoundation.
    rewrite Hv, run_bind.
    destruct (executeMove srcPile (destination "foundation" v) g) as [[[]|] g'];
      reflexivity.
  - rewrite (run_readonly getFirstAvailableOpen)
      by apply readonly_getFirstAvailableOpen.
    destruct (getFirstAvailableOpen g).1 as [a|] eqn:Ha; [|reflexivity].
    destruct (bool_decide (a ≠ -1)); [|reflexivity].
    rewrite (run_readonly getFirstAvailableOpen)
      by apply readonly_getFirstAvailableOpen.
    rewrite Ha, run_bind.
    destruct (executeMove srcPile (destination "open" a) g) as [[[]|] g'];
      reflexivity.
Qed.

Lemma attemptAutoMove_open g srcPile :
  type srcPile = "open" →
  attemptAutoMove srcPile g
  = match (getValidFoundation srcPile g).1 with
    | TypeError => (TypeError, g)
    | Ok v =>
        if bool_decide (v ≠ -1)
        then then_true (executeMove srcPile (destination "foundation" v) g)
        else (Ok false, g)
    end.
Proof.
  intros Hs. unfold attemptAutoMove. rewrite Hs. decide_kinds.
  rewrite run_bind, run_ret.
  rewrite (run_readonly (getValidFoundation srcPile))
    by apply readonly_getValidFoundation.
  destruct (getValidFoundation srcPile g).1 as [v|] eqn:Hv; [|reflexivity].
  destruct (bool_decide (v ≠ -1)); [|reflexivity].
  rewrite (run_readonly (getValidFoundation srcPile))
    by apply readonly_getValidFoundation.
  rewrite Hv, run_bind.
  destruct (executeMove srcPile (destination "foundation" v) g) as [[[]|] g'];
    reflexivity.
Qed.

Lemma attemptAutoMove_other g srcPile :
  type srcPile ≠ "cascade" → type srcPile ≠ "open" →
  attemptAutoMove srcPile g = (Ok false, g).
Proof.
  intros Hc Ho. unfold attemptAutoMove.
  by rewrite !(bool_decide_eq_false_2 (type srcPile = _)) by done.
Qed.

Lemma then_true_inv outcome r g' :
  then_true outcome = (r, g') →
  (r = Ok true ∧ outcome = (Ok tt, g')) ∨ (r = TypeError ∧ outcome = (TypeError, g')).
Proof. destruct outcome as [[[]|] g0]; simpl; intros [= <- <-]; auto. Qed.

Lemma destination_conserving c g srcPile kind i :
  kind ≠ "cascade" →
  conserving c g (executeMove srcPile (destination kind i) g).
Proof. intros Hkind. apply executeMove_conserving. intros _ Hd. done. Qed.

(** [attemptAutoMove] in terms of its two lookups.  It returns true only
    after a move it executed, to the foundation pile that
    [getValidFoundation] returned or, for a cascade source for which that
    lookup returned -1, to the first available open pile; whenever it does
    not return true the state is the one it was called on; and when both
    lookups return -1 it returns false, all piles unchanged.  What
    [getValidFoundation] returns for a cascade source is not always the
    foundation pile that takes the card. *)
Theorem attemptAutoMove_outcome (g : FreecellGame) (srcPile : PileRef) :
  (∀ g', attemptAutoMove srcPile g = (Ok true, g') →
     ∃ destPile, auto_destination g srcPile destPile
                 ∧ executeMove srcPile destPile g = (Ok tt, g'))
  ∧ (∀ r g', attemptAutoMove srcPile g = (r, g') → r ≠ Ok true → g' = g)
  ∧ ((type srcPile = "cascade" →
      getValidFoundation srcPile g = (Ok (-1), g)
      ∧ getFirstAvailableOpen g = (Ok (-1), g)) →
     (type srcPile = "open" → getValidFoundation srcPile g = (Ok (-1), g)) →
     attemptAutoMove srcPile g = (Ok false, g)).
Proof.
  pose proof (readonly_run _ g (readonly_getValidFoundation srcPile)) as Hgvf.
  pose proof (readonly_run _ g readonly_getFirstAvailableOpen) as Hgfao.
  destruct (decide (type srcPile = "cascade")) as [Hs|Hnc];
    [|destruct (decide (type srcPile = "open")) as [Hs|Hno]].
  - rewrite (attemptAutoMove_cascade g srcPile Hs).
    destruct (getValidFoundation srcPile g).1 as [v|].
    2: { split; [by intros ? [=]|split; [by intros ? ? [= <- <-]|]]. intros [H _]; [done|].
         rewrite Hgvf in H. done. }
    case_bool_decide as Hv.
    { split; [|split].
      - intros g' [[_ Hmove]|[? _]]%then_true_inv; [|done].
        eexists. split; [|exact Hmove]. left. exists v. auto.
      - intros r g' [[-> _]|[_ Hmove]]%then_true_inv; [done|]. intros _.
        destruct (destination_conserving (mkCard 0 spades) g srcPile "foundation" v)
          as [_ Hsame]; [done|].
        rewrite Hmove in Hsame. by apply Hsame.
      - intros [H _]; [done|]. rewrite Hgvf in H. congruence. }
    assert (v = -1) as -> by (destruct (decide (v = -1)); done).
    destruct (getFirstAvailableOpen g).1 as [a|].
    2: { split; [by intros ? [=]|split; [by intros ? ? [= <- <-]|]]. intros [_ H]; [done|].
         rewrite Hgfao in H. done. }
    case_bool_decide as Ha.
    { split; [|split].
      - intros g' [[_ Hmove]|[? _]]%then_true_inv; [|done].
        eexists. split; [|exact Hmove]. right. exists a. auto.
      - intros r g' [[-> _]|[_ Hmove]]%then_true_inv; [done|]. intros _.
        destruct (destination_conserving (mkCard 0 spades) g srcPile "open" a)
          as [_ Hsame]; [done|].
        rewrite Hmove in Hsame. by apply Hsame.
      - intros [_ H]; [done|]. rewrite Hgfao in H. congruence. }
    split; [by intros ? [=]|split; [by intros ? ? [= <- <-]|done]].
  - rewrite (attemptAutoMove_open g srcPile Hs).
    destruct (getValidFoundation srcPile g).1 as [v|].
    2: { split; [by intros ? [=]|split; [by intros ? ? [= <- <-]|]]. intros _ H.
         specialize (H Hs). rewrite Hgvf in H. discriminate H. }
    case_bool_decide as Hv.
    { split; [|split].
      - intros g' [[_ Hmove]|[? _]]%then_true_inv; [|done].
        eexists. split; [|exact Hmove]. left. exists v. auto.
      - intros r g' [[-> _]|[_ Hmove]]%then_true_inv; [done|]. intros _.
        destruct (destination_conserving (mkCard 0 spades) g srcPile "foundation" v)
          as [_ Hsame]; [done|].
        rewrite Hmove in Hsame. by apply Hsame.
      - intros _ H. specialize (H Hs). rewrite Hgvf in H. congruence. }
    split; [by intros ? [=]|split; [by intros ? ? [= <- <-]|done]].
  - rewrite (attemptAutoMove_other g srcPile) by done.
    split; [by intros ? [=]|split; [by intros ? ? [= <- <-]|done]].
Qed.

(** ** The deck, the shuffle and the deal *)

Lemma unshuffled_NoDup : NoDup unshuffled.
Proof. apply (bool_decide_unpack _). vm_compute. exact I. Qed.

Lemma unshuffled_length : length unshuffled = 52%nat.
Proof. reflexivity. Qed.

(** The deck holds every combination of a rank from 1 to 13 and a suit. *)
Lemma unshuffled_complete c : c ∈ unshuffled ↔ 1 ≤ value c ≤ 13.
Proof.
  split.
  - intros Hc. revert c Hc.
    apply (proj1 (list.Forall_forall (λ c, 1 ≤ value c ≤ 13) unshuffled)).
    apply (bool_decide_unpack _). vm_compute. exact I.
  - destruct c as [v s]. simpl. intros Hv.
    assert (Hrank : v ∈ ranks).
    { unfold ranks. rewrite !elem_of_cons.
      assert (v = 13 ∨ v = 12 ∨ v = 11 ∨ v = 10 ∨ v = 9 ∨ v = 8 ∨ v = 7 ∨ v = 6
              ∨ v = 5 ∨ v = 4 ∨ v = 3 ∨ v = 2 ∨ v = 1) by lia.
      tauto. }
    unfold unshuffled. apply list_elem_of_bind. exists v. split; [|done].
    apply list_elem_of_bind. exists s. split; [by left|].
    destruct s; unfold suits; rewrite !elem_of_cons; tauto.
Qed.

Lemma swap_Permutation {A} (array : list A) i j : swap array i j ≡ₚ array.
Proof.
  unfold swap.
  destruct (array !! i) as [ai|] eqn:Hi; [|done].
  destruct (array !! j) as [aj|] eqn:Hj; [|done].
  by apply Permutation_insert_swap.
Qed.

Lemma shuffle_from_Permutation {A} rnd call i (array : list A) :
  shuffle_from rnd call i array ≡ₚ array.
Proof.
  revert call array. induction i as [|i IH]; intros call array; simpl; [done|].
  by rewrite IH, swap_Permutation.
Qed.

Lemma getDeck_Permutation rnd : getDeck rnd ≡ₚ unshuffled.
Proof. apply shuffle_from_Permutation. Qed.

Lemma alter_as_insert {A} (f : A → A) (l : list A) k x :
  l !! k = Some x → alter f k l = <[k := f x]> l.
Proof.
  revert k. induction l as [|y l IH]; intros [|k] Hx; simplify_eq/=; [done|].
  f_equal. by apply IH.
Qed.

Lemma deal_tally c numCascade i deck cascade :
  0 < numCascade → length cascade = Z.to_nat numCascade →
  piles_tally c (deal numCascade i deck cascade)
  = (piles_tally c cascade + count_occ Card_eq_dec deck c)%nat.
Proof.
  intros Hpos. revert i cascade.
  induction deck as [|x deck IH]; intros i cascade Hlen; simpl; [lia|].
  assert (Hk : (Z.to_nat (i `mod` numCascade) < length cascade)%nat).
  { pose proof (Z.mod_pos_bound i numCascade Hpos). lia. }
  apply lookup_lt_is_Some_2 in Hk as [p Hp].
  rewrite IH by (by rewrite length_alter).
  rewrite (alter_as_insert _ _ _ _ Hp).
  pose proof (piles_tally_insert c _ _ _ (p ++ [Some x]) Hp) as Hins.
  rewrite tally_app in Hins.
  assert (tally c [Some x] = if Card_eq_dec x c then 1 else 0)%nat as Hx.
  { unfold tally. simpl. by destruct (Card_eq_dec x c). }
  destruct (Card_eq_dec x c); lia.
Qed.

Lemma piles_tally_replicate c n : piles_tally c (replicate n []) = 0%nat.
Proof. induction n as [|n IH]; [done|]. simpl. by rewrite piles_tally_cons, IH. Qed.

Lemma constructor_tally rnd numOpen numCascade g c :
  constructor rnd numOpen numCascade = inr g →
  game_tally c g = count_occ Card_eq_dec unshuffled c.
Proof.
  unfold constructor.
  destruct (parseInt numOpen) as [nOpen|]; [|done].
  destruct (less_than numOpen 1 || greater_than numOpen 52); [done|].
  destruct numCascade as [| |q]; try done.
  cbn [parseInt less_than greater_than].
  destruct (negb (Qle_bool (inject_Z 1) q)) eqn:H1; [done|].
  destruct (negb (Qle_bool q (inject_Z 52))) eqn:H52; [done|].
  cbn [orb]. intros Hg. apply (inj inr) in Hg. subst g.
  apply negb_false_iff, Qle_bool_iff in H1.
  destruct (truncate_accepted q H1) as [Htrunc Hfloor].
  rewrite game_tally_split. cbn [foundation open cascade].
  rewrite deal_tally, !piles_tally_replicate.
  - rewrite !Nat.add_0_l. by apply Permutation_count_occ, getDeck_Permutation.
  - lia.
  - by rewrite length_replicate.
Qed.

(** ** Every card, exactly once *)

Lemma isValidMove_cascade_receiver g srcPile destPile :
  (isValidMove (Some srcPile) (Some destPile) g).1 = Ok true →
  type srcPile = "cascade" → type destPile = "cascade" →
  at_index (cascade g) (index destPile) ≠ None.
Proof.
  intros Hvalid Hs Hd Hnone. revert Hvalid.
  unfold isValidMove. rewrite Hs, Hd.
  destruct (bool_decide (index srcPile = index destPile)); decide_kinds; [done|].
  mstep. rewrite Hnone. mstep. done.
Qed.

Lemma attemptAutoMove_conserving c g srcPile :
  conserving c g (attemptAutoMove srcPile g).
Proof.
  assert (Hnone : ∀ r : result bool, conserving c g (r, g)) by (by split).
  assert (Hmove : ∀ kind i, kind ≠ "cascade" →
            conserving c g (then_true (executeMove srcPile (destination kind i) g))).
  { intros kind i Hkind.
    destruct (destination_conserving c g srcPile kind i Hkind) as [Htally Hthrow].
    destruct (executeMove _ _ g) as [[[]|] g']; split; simpl in *; auto; done. }
  destruct (decide (type srcPile = "cascade")) as [Hs|Hnc];
    [|destruct (decide (type srcPile = "open")) as [Hs|Hno]].
  - rewrite (attemptAutoMove_cascade g srcPile Hs).
    destruct (getValidFoundation srcPile g).1 as [v|]; [|apply Hnone].
    destruct (bool_decide (v ≠ -1)); [by apply Hmove|].
    destruct (getFirstAvailableOpen g).1 as [a|]; [|apply Hnone].
    destruct (bool_decide (a ≠ -1)); [by apply Hmove|apply Hnone].
  - rewrite (attemptAutoMove_open g srcPile Hs).
    destruct (getValidFoundation srcPile g).1 as [v|]; [|apply Hnone].
    destruct (bool_decide (v ≠ -1)); [by apply Hmove|apply Hnone].
  - rewrite (attemptAutoMove_other g srcPile) by done. apply Hnone.
Qed.

Lemma reachable_tally g c :
  reachable g → game_tally c g = count_occ Card_eq_dec unshuffled c.
Proof.
  induction 1 as [rnd numOpen numCascade g Hfresh
                 |g srcPile destPile _ IH Hvalid
                 |g srcPile _ IH].
  - by eapply constructor_tally.
  - rewrite <-IH. apply (executeMove_conserving c g srcPile destPile).
    intros Hs Hd _. by apply (isValidMove_cascade_receiver g srcPile destPile).
  - rewrite <-IH. apply (attemptAutoMove_conserving c g srcPile).
Qed.

Lemma fresh_4_4_constructed : constructor zero_source (Num 4) (Num 4) = inr fresh_4_4.
Proof. vm_compute. reflexivity. Qed.

(** C4 (as the code has it): in every reachable state the cards held by the
    foundation, open and cascade piles together are the 52 cards of the
    deck, every combination of a rank 1..13 and a suit exactly once, and
    [executeMove] on a move that [isValidMove] accepted keeps the same
    cards.  (The piles may hold [undefined] entries besides the cards.) *)
Theorem reachable_cards_are_the_deck (g : FreecellGame) :
  reachable g →
  cards g ≡ₚ unshuffled
  ∧ NoDup (cards g)
  ∧ length (cards g) = 52%nat
  ∧ (∀ c, c ∈ cards g ↔ 1 ≤ value c ≤ 13)
  ∧ (∀ srcPile destPile,
       (isValidMove (Some srcPile) (Some destPile) g).1 = Ok true →
       cards (executeMove srcPile destPile g).2 ≡ₚ cards g).
Proof.
  intros Hg.
  assert (Hperm : cards g ≡ₚ unshuffled).
  { apply (Permutation_count_occ Card_eq_dec). intros c.
    rewrite <-game_tally_cards. by apply reachable_tally. }
  split; [done|]. split; [|split; [|split]].
  - rewrite Hperm. apply unshuffled_NoDup.
  - by rewrite Hperm.
  - intros c. rewrite Hperm. apply unshuffled_complete.
  - intros srcPile destPile Hvalid.
    apply (Permutation_count_occ Card_eq_dec). intros c.
    rewrite <-!game_tally_cards. apply (executeMove_conserving c g srcPile destPile).
    intros Hs Hd _. by apply (isValidMove_cascade_receiver g srcPile destPile).
Qed.

(** C4, the claim as written fails: moving from the first open pile of a
    fresh game, which is empty, to the second is accepted by [isValidMove],
    and [executeMove] then leaves an [undefined] entry in the second open
    pile, so that the piles hold 53 elements and not just the deck. *)
Lemma reachable_contents_not_the_deck :
  ∃ g, reachable g
       ∧ at_index (open g) 1 = Some [undefined]
       ∧ length (contents g) = 53%nat
       ∧ ¬ (contents g ≡ₚ Some <$> unshuffled).
Proof.
  exists (executeMove (mkRef "open" 0 0) (mkRef "open" 1 0) fresh_4_4).2.
  split.
  { apply reachable_move.
    - exact (reachable_fresh _ _ _ _ fresh_4_4_constructed).
    - vm_compute. reflexivity. }
  split; [vm_compute; reflexivity|].
  assert (Hlen : length (contents
            (executeMove (mkRef "open" 0 0) (mkRef "open" 1 0) fresh_4_4).2) = 53%nat)
    by (vm_compute; reflexivity).
  split; [exact Hlen|].
  intros Hperm. apply Permutation_length in Hperm.
  rewrite Hlen, length_fmap, unshuffled_length in Hperm. discriminate Hperm.
Qed.

(** ** The foundation lookup *)

Lemma for_loop_pure_in_range {A} n i (body : Z → M (option A)) (f : Z → option A) after a g :
  (∀ j, i ≤ j < i + Z.of_nat n → body j g = (Ok (f j), g)) →
  after g = (Ok a, g) →
  for_loop n i body after g = (Ok (first_return n i f a), g).
Proof.
  intros Hbody Hafter. revert i Hbody.
  induction n as [|n IH]; intros i Hbody; simpl; [exact Hafter|].
  rewrite run_bind, Hbody by lia. destruct (f i); [reflexivity|].
  apply IH. intros j Hj. apply Hbody. lia.
Qed.

Lemma open_card_inv g srcPile c :
  open_card srcPile g = (Ok (Some c), g) →
  ∃ p, at_index (open g) (index srcPile) = Some p ∧ element (at_index p 0) = Some c.
Proof.
  unfold open_card. mstep.
  destruct (at_index (open g) (index srcPile)) as [p|]; mstep; [|done].
  intros [= Hc]. eauto.
Qed.

(** X4: for an open source holding a card, and four foundation piles whose
    top entries are cards, [getValidFoundation] returns the index of the
    first pile that takes the card (empty with the card an ace, or topped by
    the card of the same suit one rank below), and -1 when none does. *)
Lemma getValidFoundation_open_first_taking g srcPile c f0 f1 f2 f3 :
  type srcPile = "open" →
  foundation g = [f0; f1; f2; f3] →
  open_card srcPile g = (Ok (Some c), g) →
  Forall (λ f, f = [] ∨ ∃ t, top f = Some (Some t)) (foundation g) →
  getValidFoundation srcPile g = (Ok (first_taking (foundation g) c), g).
Proof.
  intros Hs Hf [p [Hp Hc]]%open_card_inv Htops.
  unfold getValidFoundation. rewrite Hs. decide_kinds.
  rewrite (for_loop_pure_in_range 4 0 _
             (λ i, match at_index (foundation g) i with
                   | Some f => if takes f c then Some i else None
                   | None => None
                   end) _ (-1) g); [| |reflexivity].
  - rewrite Hf. unfold first_taking, first_return, at_index. simpl.
    destruct (takes f0 c); simpl; [done|].
    destruct (takes f1 c); simpl; [done|].
    destruct (takes f2 c); simpl; [done|].
    destruct (takes f3 c); simpl; done.
  - intros j Hj. mstep.
    destruct (at_index (foundation g) j) as [f|] eqn:Hfj.
    2: { exfalso. rewrite Hf in Hfj.
         assert (j = 0 ∨ j = 1 ∨ j = 2 ∨ j = 3) as [-> | [-> | [-> | ->]]] by lia;
           discriminate Hfj. }
    mstep.
    assert (Hin : f ∈ foundation g).
    { apply at_index_lookup in Hfj as [_ Hfj]. by eapply list_elem_of_lookup_2. }
    apply (proj1 (list.Forall_forall _ _) Htops) in Hin as [-> | [t Ht]].
    + simpl. mstep. rewrite Hp. mstep. rewrite Hc. mstep.
      destruct (bool_decide (value c = 1)); reflexivity.
    + destruct f as [|x f']; [discriminate Ht|].
      rewrite (bool_decide_eq_false_2 (len (x :: f') = 0)) by (by rewrite len_nil_iff).
      rewrite Ht. mstep. rewrite Hp. mstep. rewrite Hc. mstep.
      unfold takes. rewrite Ht.
      destruct (bool_decide (suit t = suit c) && bool_decide (value t = value c - 1));
        reflexivity.
Qed.

(** C1: the early [return -1] of the cascade branch.  In the reachable
    state where the ace of clubs lies on the second foundation pile and the
    2 of clubs tops the first cascade pile, the second foundation pile takes
    the 2 of clubs (same suit, one rank below on top), so the lookup of the
    specification gives index 1; [getValidFoundation] stops at the first
    foundation pile, which is empty, and returns -1.  For the same card in
    an open pile it returns 1. *)
Theorem getValidFoundation_cascade_stops_at_empty_pile :
  let g := ace_on_second_foundation in
  let srcPile := mkRef "cascade" 0 11 in
  reachable g
  ∧ foundation g = [[]; [Some (mkCard 1 clubs)]; []; []]
  ∧ cascade_card srcPile g = (Ok (Some (mkCard 2 clubs)), g)
  ∧ first_taking (foundation g) (mkCard 2 clubs) = 1
  ∧ getValidFoundation srcPile g = (Ok (-1), g)
  ∧ let g' := (attemptAutoMove srcPile g).2 in
    open_card (mkRef "open" 0 0) g' = (Ok (Some (mkCard 2 clubs)), g')
    ∧ foundation g' = foundation g
    ∧ getValidFoundation (mkRef "open" 0 0) g' = (Ok 1, g').
Proof.
  split.
  { apply reachable_move.
    - exact (reachable_fresh _ _ _ _ fresh_4_4_constructed).
    - vm_compute. reflexivity. }
  repeat split; vm_compute; reflexivity.
Qed.

(** C8: [attemptAutoMove] passes over a valid foundation pile.  In the
    reachable state where the ace of clubs lies on the second foundation
    pile and the 2 of clubs tops the first cascade pile, a valid foundation
    pile exists for the 2 of clubs (the second one, index 1), and
    [executeMove] to it would put the card on the ace; [attemptAutoMove]
    returns true but has made the move to the first open pile instead, and
    the foundation piles are as they were.  On an open pile that holds no
    card, where no destination exists, it throws instead of returning
    false. *)
Theorem attemptAutoMove_passes_over_valid_foundation :
  let g := ace_on_second_foundation in
  let srcPile := mkRef "cascade" 0 11 in
  reachable g
  ∧ cascade_card srcPile g = (Ok (Some (mkCard 2 clubs)), g)
  ∧ at_index (cascade g) 0 ≫= top = Some (Some (mkCard 2 clubs))
  ∧ foundation g = [[]; [Some (mkCard 1 clubs)]; []; []]
  ∧ takes [Some (mkCard 1 clubs)] (mkCard 2 clubs) = true
  ∧ first_taking (foundation g) (mkCard 2 clubs) = 1
  ∧ foundation (executeMove srcPile (mkRef "foundation" 1 0) g).2
    = [[]; [Some (mkCard 1 clubs); Some (mkCard 2 clubs)]; []; []]
  ∧ attemptAutoMove srcPile g
    = (Ok true, (executeMove srcPile (mkRef "open" 0 0) g).2)
  ∧ foundation (attemptAutoMove srcPile g).2 = foundation g
  ∧ open (attemptAutoMove srcPile g).2 = [[Some (mkCard 2 clubs)]; []; []; []]
  ∧ at_index (open g) 1 = Some []
  ∧ attemptAutoMove (mkRef "open" 1 0) g = (TypeError, g).
Proof.
  split.
  { apply reachable_move.
    - exact (reachable_fresh _ _ _ _ fresh_4_4_constructed).
    - vm_compute. reflexivity. }
  repeat split; vm_compute; reflexivity.
Qed.

(** ** The theorems at sample inputs *)

(** C2, the claim as written fails: a destination of the unknown kind
    "banana" is none of the six combinations, and the move is accepted; so
    is a move from a source of that kind to an open pile. *)
Lemma isValidMove_accepts_unknown_kind :
  enumerated "cascade" "banana" = false
  ∧ (isValidMove (Some (mkRef "cascade" 0 0)) (Some (mkRef "banana" 0 0)) sample_game).1
    = Ok true
  ∧ enumerated "banana" "open" = false
  ∧ (isValidMove (Some (mkRef "banana" 0 0)) (Some (mkRef "open" 0 0)) sample_game).1
    = Ok true.
Proof. repeat split; vm_compute; reflexivity. Qed.

Lemma isValidMove_unmatched_kinds_witness :
  isValidMove (Some (mkRef "cascade" 0 0)) (Some (mkRef "banana" 0 0)) sample_game
  = (Ok true, sample_game)
  ∧ isValidMove (Some (mkRef "foundation" 0 0)) (Some (mkRef "open" 0 0)) sample_game
    = (Ok false, sample_game).
Proof.
  split.
  - apply (isValidMove_unmatched_kinds sample_game
             (mkRef "cascade" 0 0) (mkRef "banana" 0 0)). reflexivity.
  - apply (isValidMove_unmatched_kinds sample_game
             (mkRef "foundation" 0 0) (mkRef "open" 0 0)). reflexivity.
Defined.

Lemma constructor_argument_check_witness :
  constructor zero_source NaN (Num 8)
  = inl (Thrown "Invalid number of open piles: " NaN)
  ∧ constructor zero_source (Num 4) (Num 53)
    = inl (Thrown "Invalid number of cascade piles: " (Num 53))
  ∧ ∃ g, constructor zero_source (Num (7 # 2)) (Num 8) = inr g
         ∧ len (foundation g) = 4
         ∧ len (open g) = 3
         ∧ len (cascade g) = 8.
Proof.
  split; [|split].
  - apply (proj1 (constructor_argument_check zero_source NaN (Num 8))).
    reflexivity.
  - apply (proj1 (proj2 (constructor_argument_check zero_source (Num 4) (Num 53))));
      reflexivity.
  - apply (proj2 (proj2 (proj2
             (constructor_argument_check zero_source (Num (7 # 2)) (Num 8))))
             (7 # 2)%Q 8%Q eq_refl eq_refl); reflexivity.
Defined.

Lemma reachable_cards_are_the_deck_witness :
  reachable fresh_4_4 ∧ cards fresh_4_4 ≡ₚ unshuffled.
Proof.
  assert (Hfresh : reachable fresh_4_4)
    by exact (reachable_fresh _ _ _ _ fresh_4_4_constructed).
  split; [exact Hfresh|].
  exact (proj1 (reachable_cards_are_the_deck fresh_4_4 Hfresh)).
Defined.

Lemma numCanMove_supermove_bound_witness :
  _numCanMove 2 tight_game = (Ok 2, tight_game)
  ∧ isValidMove (Some (mkRef "cascade" 0 0)) (Some (mkRef "cascade" 2 0)) tight_game
    = (Ok false, tight_game).
Proof.
  destruct (numCanMove_supermove_bound tight_game 2
              [Some (mkCard 13 diamonds); Some (mkCard 8 diamonds)] eq_refl)
    as [Hbound Hreject].
  split; [exact Hbound|].
  apply (Hreject (mkRef "cascade" 0 0) (mkRef "cascade" 2 0)
           [Some (mkCard 7 spades); Some (mkCard 6 hearts); Some (mkCard 5 spades)]);
    try reflexivity; discriminate.
Defined.

Lemma isValidMove_cascade_to_cascade_witness :
  isValidMove (Some (mkRef "cascade" 0 0)) (Some (mkRef "cascade" 1 0)) sample_game
  = (Ok true, sample_game)
  ∧ ∃ n b,
      _numCanMove 2 sample_game = (Ok n, sample_game)
      ∧ isBuild 0 0 sample_game = (Ok b, sample_game)
      ∧ isValidMove (Some (mkRef "cascade" 0 0)) (Some (mkRef "cascade" 2 0)) sample_game
        = (Ok (bool_decide (3 ≤ n) && b && true), sample_game).
Proof.
  split.
  - apply (proj1 (isValidMove_cascade_to_cascade sample_game
             (mkRef "cascade" 0 0) (mkRef "cascade" 1 0) eq_refl eq_refl
             ltac:(discriminate))); reflexivity.
  - apply (proj2 (isValidMove_cascade_to_cascade sample_game
             (mkRef "cascade" 0 0) (mkRef "cascade" 2 0) eq_refl eq_refl
             ltac:(discriminate))
             [Some (mkCard 7 spades); Some (mkCard 6 hearts); Some (mkCard 5 spades)]
             [Some (mkCard 13 diamonds); Some (mkCard 8 diamonds)]);
      try reflexivity; discriminate.
Defined.

(** C7, the claim as written fails: [isValidMove] accepts moves on which
    [executeMove] relocates no card.  In the sample state it accepts the
    move from the empty first open pile to the empty third one, and
    [executeMove] then removes nothing and appends [undefined] to the
    destination; it accepts the move of the top card of the first cascade
    pile to an open pile 7 that does not exist, and [executeMove] then
    throws, the card still on its pile; and it accepts the move from the
    first cascade pile at [cardIndex] -1 to the empty second one, of which
    [executeMove] moves the top card only.  In the fresh game it accepts
    the move of the ace of clubs to a foundation pile 7 that does not
    exist, and [executeMove] throws there too. *)
Lemma executeMove_validated_without_relocation :
  (at_index (open sample_game) 0 = Some []
   ∧ isValidMove (Some (mkRef "open" 0 0)) (Some (mkRef "open" 2 0)) sample_game
     = (Ok true, sample_game)
   ∧ executeMove (mkRef "open" 0 0) (mkRef "open" 2 0) sample_game
     = (Ok tt, mkGame (foundation sample_game)
                 [[]; [Some (mkCard 9 clubs)]; [undefined]]
                 (cascade sample_game)))
  ∧ (at_index (open sample_game) 7 = None
     ∧ isValidMove (Some (mkRef "cascade" 0 2)) (Some (mkRef "open" 7 0)) sample_game
       = (Ok true, sample_game)
     ∧ executeMove (mkRef "cascade" 0 2) (mkRef "open" 7 0) sample_game
       = (TypeError, sample_game))
  ∧ (at_index (foundation fresh_4_4) 7 = None
     ∧ cascade_card (mkRef "cascade" 0 12) fresh_4_4
       = (Ok (Some (mkCard 1 clubs)), fresh_4_4)
     ∧ isValidMove (Some (mkRef "cascade" 0 12)) (Some (mkRef "foundation" 7 0)) fresh_4_4
       = (Ok true, fresh_4_4)
     ∧ executeMove (mkRef "cascade" 0 12) (mkRef "foundation" 7 0) fresh_4_4
       = (TypeError, fresh_4_4))
  ∧ (at_index (cascade sample_game) 0
     = Some [Some (mkCard 7 spades); Some (mkCard 6 hearts); Some (mkCard 5 spades)]
     ∧ isValidMove (Some (mkRef "cascade" 0 (-1))) (Some (mkRef "cascade" 1 0)) sample_game
       = (Ok true, sample_game)
     ∧ executeMove (mkRef "cascade" 0 (-1)) (mkRef "cascade" 1 0) sample_game
       = (Ok tt, mkGame (foundation sample_game) (open sample_game)
                   [[Some (mkCard 7 spades); Some (mkCard 6 hearts)];
                    [Some (mkCard 5 spades)];
                    [Some (mkCard 13 diamonds); Some (mkCard 8 diamonds)];
                    [Some (mkCard 6 diamonds)]])).
Proof. repeat split; vm_compute; reflexivity. Qed.

Lemma executeMove_relocates_witness :
  executeMove (mkRef "cascade" 0 2) (mkRef "open" 0 0) sample_game
  = (Ok tt,
     {| foundation := [[]; []; []; []];
        open := [[Some (mkCard 5 spades)]; [Some (mkCard 9 clubs)]; []];
        cascade := [[Some (mkCard 7 spades); Some (mkCard 6 hearts)];
                    [];
                    [Some (mkCard 13 diamonds); Some (mkCard 8 diamonds)];
                    [Some (mkCard 6 diamonds)]] |})
  ∧ executeMove (mkRef "open" 1 0) (mkRef "cascade" 1 0) sample_game
    = (Ok tt,
       {| foundation := [[]; []; []; []];
          open := [[]; []; []];
          cascade := [[Some (mkCard 7 spades); Some (mkCard 6 hearts);
                       Some (mkCard 5 spades)];
                      [Some (mkCard 9 clubs)];
                      [Some (mkCard 13 diamonds); Some (mkCard 8 diamonds)];
                      [Some (mkCard 6 diamonds)]] |})
  ∧ executeMove (mkRef "cascade" 0 1) (mkRef "cascade" 1 0) sample_game
    = (Ok tt,
       {| foundation := [[]; []; []; []];
          open := [[]; [Some (mkCard 9 clubs)]; []];
          cascade := [[Some (mkCard 7 spades)];
                      [Some (mkCard 6 hearts); Some (mkCard 5 spades)];
                      [Some (mkCard 13 diamonds); Some (mkCard 8 diamonds)];
                      [Some (mkCard 6 diamonds)]] |}).
Proof.
  split; [|split].
  - apply (proj1 (proj1 (executeMove_relocates sample_game
             (mkRef "cascade" 0 2) (mkRef "open" 0 0) eq_refl) eq_refl) eq_refl
             [Some (mkCard 7 spades); Some (mkCard 6 hearts)] (Some (mkCard 5 spades)) []);
      reflexivity.
  - apply (proj1 (proj2 (proj2 (executeMove_relocates sample_game
             (mkRef "open" 1 0) (mkRef "cascade" 1 0) eq_refl) eq_refl
             (Some (mkCard 9 clubs)) eq_refl)) eq_refl []); reflexivity.
  - apply (proj2 (proj2 (proj1 (executeMove_relocates sample_game
             (mkRef "cascade" 0 1) (mkRef "cascade" 1 0) eq_refl) eq_refl)) eq_refl
             [Some (mkCard 7 spades); Some (mkCard 6 hearts); Some (mkCard 5 spades)] []);
      [reflexivity|reflexivity|simpl; lia].
Defined.

Lemma attemptAutoMove_outcome_witness :
  attemptAutoMove (mkRef "cascade" 0 2) tight_game = (Ok false, tight_game)
  ∧ ∃ destPile,
      auto_destination sample_game (mkRef "cascade" 0 2) destPile
      ∧ executeMove (mkRef "cascade" 0 2) destPile sample_game
        = (Ok tt, (attemptAutoMove (mkRef "cascade" 0 2) sample_game).2).
Proof.
  split.
  - apply (proj2 (proj2 (attemptAutoMove_outcome tight_game (mkRef "cascade" 0 2)))).
    + intros _. split; reflexivity.
    + intros Hkind. discriminate Hkind.
  - apply (proj1 (attemptAutoMove_outcome sample_game (mkRef "cascade" 0 2))).
    reflexivity.
Defined.

Lemma isValidMove_from_empty_open_witness :
  isValidMove (Some (mkRef "open" 0 0)) (Some (mkRef "open" 2 0)) sample_game
  = (Ok true, sample_game)
  ∧ isValidMove (Some (mkRef "open" 0 0)) (Some (mkRef "cascade" 1 0)) sample_game
    = (Ok true, sample_game)
  ∧ isValidMove (Some (mkRef "open" 0 0)) (Some (mkRef "cascade" 2 0)) sample_game
    = (Ok false, sample_game).
Proof.
  split; [|split].
  - apply (proj1 (isValidMove_from_empty_open sample_game
             (mkRef "open" 0 0) (mkRef "open" 2 0) eq_refl eq_refl));
      try reflexivity; discriminate.
  - apply (proj1 (proj2 (isValidMove_from_empty_open sample_game
             (mkRef "open" 0 0) (mkRef "cascade" 1 0) eq_refl eq_refl)));
      reflexivity.
  - apply (proj1 (proj2 (proj2 (isValidMove_from_empty_open sample_game
             (mkRef "open" 0 0) (mkRef "cascade" 2 0) eq_refl eq_refl))) eq_refl
             [Some (mkCard 13 diamonds); Some (mkCard 8 diamonds)]);
      try reflexivity; discriminate.
Defined.

(** * Further properties of the engine *)

(** ** Searching loops *)

(** A loop that returns the first index satisfying a test, and -1 after the
    last: either no index of the range passes, or the result is the least
    one that does. *)
Lemma first_return_search (P : Z → bool) n i :
  0 ≤ i →
  let v := first_return n i (λ j, if P j then Some j else None) (-1) in
  (v = -1 ∧ ∀ j, i ≤ j < i + Z.of_nat n → P j = false)
  ∨ (i ≤ v < i + Z.of_nat n ∧ P v = true ∧ ∀ j, i ≤ j < v → P j = false).
Proof.
  revert i. induction n as [|n IH]; intros i Hi; simpl.
  - left. split; [done|]. intros j Hj. lia.
  - destruct (P i) eqn:HPi.
    + right. split; [lia|]. split; [done|]. intros j Hj. lia.
    + destruct (IH (i + 1) ltac:(lia)) as [[Hv Hnone]|[Hv [HP Hbefore]]].
      * left. split; [done|]. intros j Hj.
        destruct (decide (j = i)) as [->|]; [done|]. apply Hnone. lia.
      * right. split; [lia|]. split; [done|]. intros j Hj.
        destruct (decide (j = i)) as [->|]; [done|]. apply Hbefore. lia.
Qed.

Lemma at_index_in_range {A} (a : list A) j :
  0 ≤ j < len a → ∃ x, at_index a j = Some x.
Proof.
  intros Hj. unfold at_index, len in *. rewrite bool_decide_eq_true_2 by lia.
  apply lookup_lt_is_Some_2. lia.
Qed.

Lemma at_index_Some_range {A} (a : list A) j x :
  at_index a j = Some x → 0 ≤ j < len a.
Proof.
  intros [Hj Hx]%at_index_lookup. apply lookup_lt_Some in Hx. unfold len. lia.
Qed.

Lemma at_index_elem_of {A} (a : list A) x :
  x ∈ a ↔ ∃ j, at_index a j = Some x.
Proof.
  split.
  - intros [n Hn]%list_elem_of_lookup. exists (Z.of_nat n).
    unfold at_index. rewrite bool_decide_eq_true_2 by lia. by rewrite Nat2Z.id.
  - intros [j [_ Hj]%at_index_lookup]. by eapply list_elem_of_lookup_2.
Qed.

Lemma getFirstAvailableOpen_run g :
  getFirstAvailableOpen g
  = (Ok (first_return (length (open g)) 0
           (λ j, if open_is_empty g j then Some j else None) (-1)), g).
Proof.
  unfold getFirstAvailableOpen. mstep.
  change (len (open g)) with (Z.of_nat (length (open g))). rewrite Nat2Z.id.
  apply for_loop_pure_in_range; [|reflexivity].
  intros j Hj. mstep. unfold open_is_empty.
  destruct (at_index_in_range (open g) j) as [p Hp]; [unfold len; lia|].
  rewrite Hp. mstep. destruct (bool_decide (len p = 0)); reflexivity.
Qed.

(** X1: [getFirstAvailableOpen] never throws and never changes the state.
    It returns -1 exactly when no open pile is empty; otherwise it returns
    the index of an empty open pile, and every open pile before it holds
    something. *)
Theorem getFirstAvailableOpen_first_empty (g : FreecellGame) :
  ∃ a, getFirstAvailableOpen g = (Ok a, g)
       ∧ ((a = -1 ∧ ∀ p, p ∈ open g → p ≠ [])
          ∨ (0 ≤ a < len (open g)
             ∧ at_index (open g) a = Some []
             ∧ ∀ j p, 0 ≤ j < a → at_index (open g) j = Some p → p ≠ [])).
Proof.
  eexists. split; [apply getFirstAvailableOpen_run|].
  destruct (first_return_search (open_is_empty g) (length (open g)) 0 ltac:(done))
    as [[-> Hnone]|[Hv [HP Hbefore]]]; [left|right].
  - split; [done|]. intros p [j Hj]%at_index_elem_of ->.
    specialize (Hnone j (at_index_Some_range _ _ _ Hj)).
    unfold open_is_empty in Hnone. by rewrite Hj in Hnone.
  - split; [exact Hv|]. split.
    + unfold open_is_empty in HP.
      destruct (at_index (open g) _) as [p|]; [|done].
      apply bool_decide_eq_true_1, len_nil_iff in HP. by subst.
    + intros j p Hj Hp ->. specialize (Hbefore j Hj).
      unfold open_is_empty in Hbefore. by rewrite Hp in Hbefore.
Qed.

(** ** Builds *)

Lemma isBuild_loop (p : Pile) n i :
  n = Z.to_nat (len p - i) →
  first_return n i (isBuild_step p) true = true
  ↔ ∀ j, i ≤ j < len p - 1 →
         _isStackable (element (at_index p j)) (element (at_index p (j + 1))) = true.
Proof.
  revert i. induction n as [|n IH]; intros i Hn; simpl.
  - split; [|done]. intros _ j Hj. lia.
  - unfold isBuild_step at 1. case_bool_decide as Hlast.
    + split; [|done]. intros _ j Hj. lia.
    + destruct (_isStackable (element (at_index p i))
                  (element (at_index p (i + 1)))) eqn:Hstack; simpl.
      * rewrite (IH (i + 1)) by lia. split.
        -- intros Hrest j Hj. destruct (decide (j = i)) as [->|]; [done|].
           apply Hrest. lia.
        -- intros Hall j Hj. apply Hall. lia.
      * split; [done|]. intros Hall. rewrite Hall in Hstack by lia. done.
Qed.

(** X2: on a cascade pile that exists, [isBuild] returns true exactly when
    every card from [cardIdx] up to the one below the top is stackable under
    its successor (so a start at or beyond the top card gives true); it
    never changes the state, and on a pile index that names no pile it
    throws. *)
Theorem isBuild_all_stackable (g : FreecellGame) (pileIdx cardIdx : Z) :
  (at_index (cascade g) pileIdx = None → isBuild pileIdx cardIdx g = (TypeError, g))
  ∧ (∀ p, at_index (cascade g) pileIdx = Some p →
       ∃ b, isBuild pileIdx cardIdx g = (Ok b, g)
            ∧ (b = true
               ↔ ∀ j, cardIdx ≤ j < len p - 1 →
                      _isStackable (element (at_index p j))
                        (element (at_index p (j + 1))) = true)).
Proof.
  split.
  - intros Hnone. unfold isBuild. mstep. rewrite Hnone. mstep. reflexivity.
  - intros p Hp. eexists. split; [apply (isBuild_run _ _ _ _ Hp)|].
    by apply isBuild_loop.
Qed.

Lemma isStackable_inv underCard overCard :
  _isStackable underCard overCard = true →
  ∃ u o, underCard = Some u ∧ overCard = Some o
         ∧ value o = value u - 1 ∧ isBlack o = negb (isBlack u).
Proof.
  destruct underCard as [u|], overCard as [o|]; simpl; try done.
  intros [Hrank Hcolour]%andb_prop. exists u, o.
  apply bool_decide_eq_true_1 in Hrank. unfold getValue in Hrank.
  repeat split; [lia|]. by destruct (isBlack o), (isBlack u).
Qed.

(** X3: when [isBuild] says yes for a run of at least two cards, the run is
    made of cards only, the ranks go down by exactly one from each card to
    the next, and the colours alternate: the k-th card after the first has
    the rank of the first minus k, and the colour of the first if k is even,
    the other colour if k is odd. *)
Theorem isBuild_descending_alternating (g : FreecellGame) (pileIdx cardIdx : Z) (p : Pile) :
  at_index (cascade g) pileIdx = Some p →
  isBuild pileIdx cardIdx g = (Ok true, g) →
  cardIdx < len p - 1 →
  ∃ c0, element (at_index p cardIdx) = Some c0
        ∧ ∀ k : nat, cardIdx + Z.of_nat k ≤ len p - 1 →
            ∃ c, element (at_index p (cardIdx + Z.of_nat k)) = Some c
                 ∧ value c = value c0 - Z.of_nat k
                 ∧ isBlack c = if Nat.even k then isBlack c0 else negb (isBlack c0).
Proof.
  intros Hp Hbuild Hlong.
  rewrite (isBuild_run _ _ _ _ Hp) in Hbuild.
  assert (Hall : ∀ j, cardIdx ≤ j < len p - 1 →
            _isStackable (element (at_index p j)) (element (at_index p (j + 1))) = true).
  { apply (isBuild_loop p _ cardIdx eq_refl). congruence. }
  destruct (isStackable_inv _ _ (Hall cardIdx ltac:(lia))) as (c0 & _ & Hc0 & _).
  exists c0. split; [exact Hc0|].
  induction k as [|k IH]; intros Hk.
  - exists c0. rewrite Z.add_0_r, Z.sub_0_r. auto.
  - destruct IH as (c & Hc & Hrank & Hcolour); [lia|].
    destruct (isStackable_inv _ _ (Hall (cardIdx + Z.of_nat k) ltac:(lia)))
      as (u & o & Hu & Ho & Hrank' & Hcolour').
    rewrite Hc in Hu. injection Hu as <-.
    exists o. replace (cardIdx + Z.of_nat (S k)) with (cardIdx + Z.of_nat k + 1) by lia.
    split; [exact Ho|]. split; [lia|].
    rewrite Nat.even_succ, <-Nat.negb_even, Hcolour', Hcolour.
    by destruct (Nat.even k), (isBlack c0).
Qed.

(** ** More on the foundation lookup *)

Lemma cascade_card_inv g srcPile c :
  cascade_card srcPile g = (Ok (Some c), g) →
  ∃ p, at_index (cascade g) (index srcPile) = Some p
       ∧ element (at_index p (cardIndex srcPile)) = Some c.
Proof.
  unfold cascade_card. mstep.
  destruct (at_index (cascade g) (index srcPile)) as [p|]; mstep; [|done].
  intros [= Hc]. eauto.
Qed.

(** X5: for a cascade source that names a card [c], and four foundation
    piles topped by cards, [getValidFoundation] returns without throwing,
    and what it returns is the first pile that takes [c] (or -1 when none
    does) except in one case: the card is not an ace and some foundation
    pile is empty, where it may return -1 although a later pile takes the
    card.  It never returns the index of a pile that does not take the
    card. *)
Theorem getValidFoundation_cascade_first_taking_or_none
    (g : FreecellGame) (srcPile : PileRef) (c : Card) (f0 f1 f2 f3 : Pile) :
  type srcPile = "cascade" →
  foundation g = [f0; f1; f2; f3] →
  cascade_card srcPile g = (Ok (Some c), g) →
  Forall (λ f, f = [] ∨ ∃ t, top f = Some (Some t)) (foundation g) →
  ∃ v, getValidFoundation srcPile g = (Ok v, g)
       ∧ (v = first_taking (foundation g) c
          ∨ (v = -1 ∧ value c ≠ 1 ∧ [] ∈ foundation g)).
Proof.
  intros Hs Hf [p [Hp Hc]]%cascade_card_inv Htops.
  unfold getValidFoundation. rewrite Hs. decide_kinds.
  eexists. split.
  - apply (for_loop_pure_in_range 4 0 _
             (λ i, match at_index (foundation g) i with
                   | Some [] => if bool_decide (value c = 1) then Some i else Some (-1)
                   | Some f => if takes f c then Some i else None
                   | None => None
                   end) _ (-1) g); [|reflexivity].
    intros j Hj. mstep.
    destruct (at_index (foundation g) j) as [f|] eqn:Hfj.
    2: { exfalso. rewrite Hf in Hfj.
         assert (j = 0 ∨ j = 1 ∨ j = 2 ∨ j = 3) as [-> | [-> | [-> | ->]]] by lia;
           discriminate Hfj. }
    mstep.
    assert (Hin : f ∈ foundation g) by (apply at_index_elem_of; eauto).
    apply (proj1 (list.Forall_forall _ _) Htops) in Hin as [-> | [t Ht]].
    + simpl. mstep. rewrite Hp. mstep. rewrite Hc. mstep.
      destruct (bool_decide (value c = 1)); reflexivity.
    + destruct f as [|x f']; [discriminate Ht|].
      rewrite (bool_decide_eq_false_2 (len (x :: f') = 0)) by (by rewrite len_nil_iff).
      rewrite Ht. mstep. rewrite Hp. mstep. rewrite Hc. mstep.
      unfold takes. rewrite Ht.
      destruct (bool_decide (suit t = suit c) && bool_decide (value t = value c - 1));
        reflexivity.
  - rewrite Hf. unfold first_taking, first_return, at_index. simpl.
    destruct (bool_decide (value c = 1)) eqn:Hace.
    + destruct f0 as [|x0 f0']; [simpl; rewrite ?Hace; simpl; by left|].
      generalize (takes (x0 :: f0') c); intros [|]; simpl; [by left|].
      destruct f1 as [|x1 f1']; [simpl; rewrite ?Hace; simpl; by left|].
      generalize (takes (x1 :: f1') c); intros [|]; simpl; [by left|].
      destruct f2 as [|x2 f2']; [simpl; rewrite ?Hace; simpl; by left|].
      generalize (takes (x2 :: f2') c); intros [|]; simpl; [by left|].
      destruct f3 as [|x3 f3']; [simpl; rewrite ?Hace; simpl; by left|].
      generalize (takes (x3 :: f3') c); intros [|]; simpl; [by left|].
      by left.
    + apply bool_decide_eq_false_1 in Hace.
      destruct f0 as [|x0 f0'];
        [right; split; [done|]; split; [done|]; solve [repeat constructor]|].
      generalize (takes (x0 :: f0') c); intros [|]; simpl; [by left|].
      destruct f1 as [|x1 f1'];
        [right; split; [done|]; split; [done|]; solve [repeat constructor]|].
      generalize (takes (x1 :: f1') c); intros [|]; simpl; [by left|].
      destruct f2 as [|x2 f2'];
        [right; split; [done|]; split; [done|]; solve [repeat constructor]|].
      generalize (takes (x2 :: f2') c); intros [|]; simpl; [by left|].
      destruct f3 as [|x3 f3'];
        [right; split; [done|]; split; [done|]; solve [repeat constructor]|].
      generalize (takes (x3 :: f3') c); intros [|]; simpl; [by left|].
      by left.
Qed.

Lemma cascade_card_missing g srcPile :
  (∀ c, cascade_card srcPile g ≠ (Ok (Some c), g)) →
  at_index (cascade g) (index srcPile) = None
  ∨ ∃ p, at_index (cascade g) (index srcPile) = Some p
         ∧ element (at_index p (cardIndex srcPile)) = None.
Proof.
  intros Hnone. unfold cascade_card in Hnone. revert Hnone. mstep.
  destruct (at_index (cascade g) (index srcPile)) as [p|]; mstep; [|by left].
  intros Hnone. right. exists p. split; [done|].
  destruct (element _) as [c|]; [|done]. by destruct (Hnone c).
Qed.

Lemma open_card_missing g srcPile :
  (∀ c, open_card srcPile g ≠ (Ok (Some c), g)) →
  at_index (open g) (index srcPile) = None
  ∨ ∃ p, at_index (open g) (index srcPile) = Some p
         ∧ element (at_index p 0) = None.
Proof.
  intros Hnone. unfold open_card in Hnone. revert Hnone. mstep.
  destruct (at_index (open g) (index srcPile)) as [p|]; mstep; [|by left].
  intros Hnone. right. exists p. split; [done|].
  destruct (element _) as [c|]; [|done]. by destruct (Hnone c).
Qed.

(** X6: [getValidFoundation] answers -1 for "no foundation takes this card",
    never for "there is no card": on a cascade reference or an open
    reference that names no card (a missing pile, an index past the end, an
    empty open pile) it throws a TypeError, whatever the foundation piles
    are, and leaves the state as it was.  On a reference of any other kind
    it returns -1 without reading a pile. *)
Theorem getValidFoundation_without_card (g : FreecellGame) (srcPile : PileRef) :
  (type srcPile = "cascade" →
   (∀ c, cascade_card srcPile g ≠ (Ok (Some c), g)) →
   getValidFoundation srcPile g = (TypeError, g))
  ∧ (type srcPile = "open" →
     (∀ c, open_card srcPile g ≠ (Ok (Some c), g)) →
     getValidFoundation srcPile g = (TypeError, g))
  ∧ (type srcPile ≠ "cascade" → type srcPile ≠ "open" →
     getValidFoundation srcPile g = (Ok (-1), g)).
Proof.
  split; [|split].
  - intros Hs Hnone%cascade_card_missing.
    unfold getValidFoundation. rewrite Hs. decide_kinds. cbn [for_loop]. mstep.
    destruct (at_index (foundation g) 0) as [f|]; mstep; [|reflexivity].
    destruct (bool_decide (len f = 0)); mstep.
    + destruct Hnone as [Hp|[p [Hp Hc]]]; rewrite Hp; mstep; [done|].
      rewrite Hc. reflexivity.
    + destruct (top f) as [[t|]|]; mstep; try reflexivity.
      destruct Hnone as [Hp|[p [Hp Hc]]]; rewrite Hp; mstep; [done|].
      rewrite Hc. reflexivity.
  - intros Hs Hnone%open_card_missing.
    unfold getValidFoundation. rewrite Hs. decide_kinds. cbn [for_loop]. mstep.
    destruct (at_index (foundation g) 0) as [f|]; mstep; [|reflexivity].
    destruct (bool_decide (len f = 0)); mstep.
    + destruct Hnone as [Hp|[p [Hp Hc]]]; rewrite Hp; mstep; [done|].
      rewrite Hc. reflexivity.
    + destruct (top f) as [[t|]|]; mstep; try reflexivity.
      destruct Hnone as [Hp|[p [Hp Hc]]]; rewrite Hp; mstep; [done|].
      rewrite Hc. reflexivity.
  - intros Hc Ho. unfold getValidFoundation.
    by rewrite !(bool_decide_eq_false_2 (type srcPile = _)) by done.
Qed.

(** ** More on [isValidMove] *)

(** X7: for a destination of kind "foundation", [isValidMove] never looks
    at the destination's index: two foundation destinations get the same
    verdict from any source in any state.  For a cascade or open source the
    verdict is whether [getValidFoundation] found some pile, so a move to a
    foundation pile other than the one found, or to one that does not exist,
    is accepted as well. *)
Theorem isValidMove_ignores_foundation_index
    (g : FreecellGame) (srcPile dest1 dest2 : PileRef) :
  type dest1 = "foundation" →
  type dest2 = "foundation" →
  isValidMove (Some srcPile) (Some dest1) g = isValidMove (Some srcPile) (Some dest2) g
  ∧ (type srcPile = "cascade" ∨ type srcPile = "open" →
     isValidMove (Some srcPile) (Some dest1) g
     = match (getValidFoundation srcPile g).1 with
       | Ok v => (Ok (negb (bool_decide (v = -1))), g)
       | TypeError => (TypeError, g)
       end).
Proof.
  intros Hd1 Hd2.
  assert (Hform : ∀ d, type d = "foundation" →
            (type srcPile = "cascade" ∨ type srcPile = "open") →
            isValidMove (Some srcPile) (Some d) g
            = match (getValidFoundation srcPile g).1 with
              | Ok v => (Ok (negb (bool_decide (v = -1))), g)
              | TypeError => (TypeError, g)
              end).
  { intros d Hd Hsrc. unfold isValidMove. rewrite Hd.
    destruct Hsrc as [Hs|Hs]; rewrite Hs; decide_kinds;
      rewrite (run_readonly (getValidFoundation srcPile))
        by apply readonly_getValidFoundation;
      destruct (getValidFoundation srcPile g).1 as [v|]; [|done| |done];
      by destruct (bool_decide (v = -1)). }
  split; [|by apply Hform].
  destruct (decide (type srcPile = "cascade")) as [Hs|Hnc];
    [by rewrite !Hform by auto|].
  destruct (decide (type srcPile = "open")) as [Hs|Hno];
    [by rewrite !Hform by auto|].
  unfold isValidMove. rewrite Hd1, Hd2.
  rewrite !(bool_decide_eq_false_2 (type srcPile = "cascade")) by done.
  rewrite !(bool_decide_eq_false_2 (type srcPile = "open")) by done.
  destruct (bool_decide (type srcPile = "foundation")); [|reflexivity].
  by rewrite !orb_true_r.
Qed.

Lemma getFirstAvailableOpen_cases g :
  ∃ a, getFirstAvailableOpen g = (Ok a, g)
       ∧ ((a = -1 ∧ [] ∉ open g) ∨ (a ≠ -1 ∧ at_index (open g) a = Some [])).
Proof.
  eexists. split; [apply getFirstAvailableOpen_run|].
  destruct (first_return_search (open_is_empty g) (length (open g)) 0 ltac:(done))
    as [[-> Hnone]|[Hv [HP _]]]; [left|right].
  - split; [done|]. intros [j Hj]%at_index_elem_of.
    specialize (Hnone j (at_index_Some_range _ _ _ Hj)).
    unfold open_is_empty in Hnone. by rewrite Hj in Hnone.
  - split; [lia|]. unfold open_is_empty in HP.
    destruct (at_index (open g) _) as [p|]; [|done].
    apply bool_decide_eq_true_1, len_nil_iff in HP. by subst.
Qed.

(** X8: with a source cascade pile that exists, [isValidMove] accepts a
    cascade-to-open move exactly when some open pile is empty, [cardIndex]
    names the top card, and the destination open pile is empty or does not
    exist.  On a destination index that names no open pile, accepted or not,
    [executeMove] throws a TypeError and moves nothing. *)
Theorem isValidMove_cascade_to_open
    (g : FreecellGame) (srcPile destPile : PileRef) (ps : Pile) :
  type srcPile = "cascade" →
  type destPile = "open" →
  at_index (cascade g) (index srcPile) = Some ps →
  isValidMove (Some srcPile) (Some destPile) g
  = (Ok (bool_decide ([] ∈ open g)
         && bool_decide (cardIndex srcPile = len ps - 1)
         && match at_index (open g) (index destPile) with
            | Some o => bool_decide (o = [])
            | None => true
            end), g)
  ∧ (at_index (open g) (index destPile) = None →
     executeMove srcPile destPile g = (TypeError, g)).
Proof.
  intros Hs Hd Hsrc. split.
  - unfold isValidMove. rewrite Hs, Hd. decide_kinds.
    destruct (getFirstAvailableOpen_cases g) as (a & Ha & [[-> Hnone]|[Hne Hempty]]);
      rewrite run_bind, Ha.
    + rewrite (bool_decide_eq_false_2 ([] ∈ open g)) by done. reflexivity.
    + rewrite (bool_decide_eq_false_2 (a = -1)) by done.
      rewrite (bool_decide_eq_true_2 ([] ∈ open g))
        by (apply at_index_elem_of; eauto).
      mstep. rewrite Hsrc. mstep.
      destruct (decide (cardIndex srcPile = len ps - 1)) as [Htop|Htop].
      * rewrite (bool_decide_eq_false_2 (cardIndex srcPile ≠ len ps - 1)) by tauto.
        rewrite (bool_decide_eq_true_2 _ Htop). mstep.
        destruct (at_index (open g) (index destPile)) as [o|]; [|reflexivity].
        destruct (decide (o = [])) as [->|Hne'].
        -- reflexivity.
        -- rewrite (bool_decide_eq_true_2 (len o ≠ 0)) by (by rewrite len_nil_iff).
           by rewrite (bool_decide_eq_false_2 (o = [])).
      * rewrite (bool_decide_eq_true_2 (cardIndex srcPile ≠ len ps - 1)) by done.
        by rewrite (bool_decide_eq_false_2 _ Htop).
  - intros Hnone. run_executeMove Hs Hd. rewrite Hnone. mstep. reflexivity.
Qed.

(** ** [executeMove] on arbitrary arguments *)

(** X9: [executeMove] is given no guarantee about its arguments, and still
    it never duplicates or drops a card, and a call that throws has changed
    nothing: this holds for every source and destination, validated or not,
    except a run detached from an existing cascade pile towards a cascade
    pile that does not exist. *)
Theorem executeMove_keeps_cards (g : FreecellGame) (srcPile destPile : PileRef) :
  ¬ (type srcPile = "cascade" ∧ type destPile = "cascade"
     ∧ at_index (cascade g) (index srcPile) ≠ None
     ∧ at_index (cascade g) (index destPile) = None) →
  cards (executeMove srcPile destPile g).2 ≡ₚ cards g
  ∧ ((executeMove srcPile destPile g).1 = TypeError →
     (executeMove srcPile destPile g).2 = g).
Proof.
  intros Hcase.
  assert (Hreceiver : type srcPile = "cascade" → type destPile = "cascade" →
            at_index (cascade g) (index srcPile) ≠ None →
            at_index (cascade g) (index destPile) ≠ None) by (intros; tauto).
  split.
  - apply (Permutation_count_occ Card_eq_dec). intros c.
    rewrite <-!game_tally_cards.
    by apply (executeMove_conserving c g srcPile destPile).
  - by apply (executeMove_conserving (mkCard 0 spades) g srcPile destPile).
Qed.

(** X10: the excepted case.  A cascade-to-cascade call whose source pile
    exists and whose destination pile does not throws a TypeError after the
    source pile was cut at [cardIndex]: the state it leaves has lost the
    detached run, and nothing else. *)
Theorem executeMove_loses_detached_run
    (g : FreecellGame) (srcPile destPile : PileRef) (ps : Pile) :
  type srcPile = "cascade" →
  type destPile = "cascade" →
  at_index (cascade g) (index srcPile) = Some ps →
  at_index (cascade g) (index destPile) = None →
  let g' := mkGame (foundation g) (open g)
              (store (cascade g) (index srcPile) (slice_to ps (cardIndex srcPile))) in
  executeMove srcPile destPile g = (TypeError, g')
  ∧ cards g ≡ₚ omap id (slice_from ps (cardIndex srcPile)) ++ cards g'.
Proof.
  intros Hs Hd Hsrc Hdst g'. split.
  - run_executeMove Hs Hd. repeat (rewrite Hsrc; mstep).
    assert (index srcPile ≠ index destPile) by congruence.
    rewrite at_index_store_ne, Hdst by done. reflexivity.
  - apply (Permutation_count_occ Card_eq_dec). intros c.
    rewrite count_occ_app, <-!game_tally_cards, !game_tally_split.
    subst g'. cbn [foundation open cascade].
    pose proof (piles_tally_store c _ _ _ (slice_to ps (cardIndex srcPile)) Hsrc).
    pose proof (tally_slice c ps (cardIndex srcPile)).
    change (count_occ Card_eq_dec (omap id (slice_from ps (cardIndex srcPile))) c)
      with (tally c (slice_from ps (cardIndex srcPile))).
    lia.
Qed.

(** ** What no call ever does to the piles *)

Lemma store_length {A} (a : list A) i x : length (store a i x) = length a.
Proof. unfold store. case_bool_decide; [apply length_insert|done]. Qed.

Lemma evolves_refl g : evolves g g.
Proof.
  repeat split. intros i f Hf. exists []. by rewrite app_nil_r.
Qed.

Lemma evolves_trans g1 g2 g3 : evolves g1 g2 → evolves g2 g3 → evolves g1 g3.
Proof.
  intros (Hf & Ho & Hc & Hgrow) (Hf' & Ho' & Hc' & Hgrow').
  repeat split; [congruence..|].
  intros i f Hi.
  destruct (Hgrow i f Hi) as [added Hadded].
  destruct (Hgrow' i _ Hadded) as [added' Hadded'].
  exists (added ++ added'). by rewrite app_assoc.
Qed.

Lemma within_pure {A} (m : M A) : readonly m → within evolves m.
Proof. intros Hm g. rewrite Hm. apply evolves_refl. Qed.

Lemma within_bind {A B} (m : M A) (k : A → M B) :
  within evolves m → (∀ a, within evolves (k a)) → within evolves (m ≫= k).
Proof.
  intros Hm Hk g. rewrite run_bind. specialize (Hm g).
  destruct (m g) as [[a|] g1]; simpl in *; [|done].
  eapply evolves_trans; [exact Hm|apply Hk].
Qed.

Lemma within_set_open i p : within evolves (set_open i p).
Proof.
  intros g. unfold set_open. rewrite run_modify. simpl.
  repeat split; simpl; [apply store_length|].
  intros j f Hf. exists []. by rewrite app_nil_r.
Qed.

Lemma within_set_cascade i p : within evolves (set_cascade i p).
Proof.
  intros g. unfold set_cascade. rewrite run_modify. simpl.
  repeat split; simpl; [apply store_length|].
  intros j f Hf. exists []. by rewrite app_nil_r.
Qed.

Lemma within_push_foundation i x : within evolves (push_foundation i x).
Proof.
  intros g. unfold push_foundation. mstep.
  destruct (at_index (foundation g) i) as [p|] eqn:Hp; mstep;
    [|apply evolves_refl].
  repeat split; simpl; [apply store_length|].
  intros j f Hf. destruct (decide (i = j)) as [->|Hne].
  - exists [x]. rewrite (at_index_store_eq _ _ _ _ Hp). congruence.
  - exists []. by rewrite at_index_store_ne, app_nil_r.
Qed.

Ltac within_step :=
  first
    [ apply within_set_open
    | apply within_set_cascade
    | apply within_push_foundation
    | apply within_pure; solve_readonly; fail
    | apply within_bind; [|intros ?]
    | match goal with
      | |- within evolves (if ?b then _ else _) => destruct b
      | |- within evolves (let _ := _ in _) => cbv zeta
      end ].

Lemma within_executeMove srcPile destPile : within evolves (executeMove srcPile destPile).
Proof.
  unfold executeMove, pop_cascade, pop_open, push_open, push_cascade,
    this_foundation, this_open, this_cascade.
  repeat within_step.
Qed.

Lemma within_attemptAutoMove srcPile : within evolves (attemptAutoMove srcPile).
Proof.
  unfold attemptAutoMove.
  repeat first
    [ apply within_executeMove
    | apply within_pure;
        first [apply readonly_getValidFoundation
              |apply readonly_getFirstAvailableOpen
              |solve_readonly]; fail
    | apply within_bind; [|intros ?]
    | match goal with
      | |- within evolves (if ?b then _ else _) => destruct b
      | |- within evolves (match ?o with Some _ => _ | None => _ end) => destruct o
      end ].
Qed.

(** X11: whatever calls of [executeMove] and [attemptAutoMove] are made on a
    game, with whatever arguments, returning or throwing, the numbers of
    foundation, open and cascade piles stay what they were, and no entry is
    ever taken off or changed in a foundation pile: each foundation pile is
    its former self with entries added on top. *)
Theorem mutators_keep_piles_and_foundations (g0 g : FreecellGame) :
  plays g0 g →
  length (foundation g) = length (foundation g0)
  ∧ length (open g) = length (open g0)
  ∧ length (cascade g) = length (cascade g0)
  ∧ ∀ i f, at_index (foundation g0) i = Some f →
           ∃ added, at_index (foundation g) i = Some (f ++ added).
Proof.
  intros Hplays. change (evolves g0 g).
  induction Hplays as [|g srcPile destPile _ IH|g srcPile _ IH].
  - apply evolves_refl.
  - eapply evolves_trans; [exact IH|apply within_executeMove].
  - eapply evolves_trans; [exact IH|apply within_attemptAutoMove].
Qed.

(** ** The layout of reachable states *)

Lemma constructor_layout rnd numOpen numCascade g :
  constructor rnd numOpen numCascade = inr g →
  ∃ nOpen nCascade,
    1 ≤ nOpen ≤ 52 ∧ 1 ≤ nCascade ≤ 52
    ∧ parseInt numOpen = Some nOpen ∧ parseInt numCascade = Some nCascade
    ∧ g = mkGame (replicate 4 []) (replicate (Z.to_nat nOpen) [])
            (deal nCascade 0 (getDeck rnd) (replicate (Z.to_nat nCascade) [])).
Proof.
  intros Hg.
  destruct (accepted numOpen) eqn:Ho;
    [|by rewrite constructor_rejects_open in Hg].
  destruct (accepted numCascade) eqn:Hc;
    [|by rewrite constructor_rejects_cascade in Hg].
  destruct numOpen as [| |qo]; try done. destruct numCascade as [| |qc]; try done.
  destruct (accepted_range _ Ho) as [Ho1 Ho52], (accepted_range _ Hc) as [Hc1 Hc52].
  destruct (truncate_accepted _ Ho1) as [Hto ?], (truncate_accepted _ Hc1) as [Htc ?].
  apply Qfloor_resp_le in Ho52, Hc52. change (Qfloor 52) with 52 in *.
  exists (Qfloor qo), (Qfloor qc). repeat split; try lia.
  - simpl. by rewrite Hto.
  - simpl. by rewrite Htc.
  - revert Hg. unfold constructor, accepted in *. range_tests.
    apply andb_prop in Ho as [-> ->], Hc as [-> ->]. cbn [negb orb].
    rewrite Hto, Htc. intros Hg. apply (inj inr) in Hg. by subst g.
Qed.

















(** ** The deck and the deal *)

(** X13: whatever [Math.random] returns, [shuffle] hands back a permutation
    of the array it was given, and [getDeck] a deck of 52 cards in which no
    card occurs twice and which holds every combination of a rank from 1 to
    13 and a suit. *)
Theorem getDeck_is_a_full_deck (rnd : RandomSource) :
  (∀ (A : Type) (array : list A),
     shuffle rnd array ≡ₚ array ∧ length (shuffle rnd array) = length array)
  ∧ length (getDeck rnd) = 52%nat
  ∧ NoDup (getDeck rnd)
  ∧ ∀ c, c ∈ getDeck rnd ↔ 1 ≤ value c ≤ 13.
Proof.
  assert (Hshuffle : ∀ (A : Type) (array : list A), shuffle rnd array ≡ₚ array).
  { intros A array. apply shuffle_from_Permutation. }
  split; [|split; [|split]].
  - intros A array. split; [apply Hshuffle|]. by rewrite (Hshuffle A array).
  - unfold getDeck. by rewrite Hshuffle.
  - unfold getDeck. rewrite Hshuffle. apply unshuffled_NoDup.
  - intros c. unfold getDeck. rewrite Hshuffle. apply unshuffled_complete.
Qed.







(** ** The accessors *)

Lemma slice_copy {A} (p : list A) : slice_from p 0 = p.
Proof.
  unfold slice_from, relative_index. rewrite bool_decide_eq_false_2 by lia.
  rewrite Z.min_l by (unfold len; lia). reflexivity.
Qed.

Lemma copies_eq (a : list Pile) : (λ p, slice_from p 0) <$> a = a.
Proof. induction a as [|p a IH]; [done|]. by rewrite fmap_cons, slice_copy, IH. Qed.

(** X16: [getFoundation], [getOpen] and [getCascade] return the piles as
    they are, entry for entry, and change nothing.  On a game constructed
    with whole numbers, [getNumOpen] and [getNumCascade] give back the two
    arguments of the constructor, and [getFoundation] and [getOpen] four and
    [numOpen] empty piles. *)
Theorem accessors_read_the_piles (g : FreecellGame) :
  getFoundation g = (Ok (foundation g), g)
  ∧ getOpen g = (Ok (open g), g)
  ∧ getCascade g = (Ok (cascade g), g)
  ∧ ∀ rnd (numOpen numCascade : Z),
      constructor rnd (Num (inject_Z numOpen)) (Num (inject_Z numCascade)) = inr g →
      getNumOpen g = (Ok numOpen, g)
      ∧ getNumCascade g = (Ok numCascade, g)
      ∧ getFoundation g = (Ok [[]; []; []; []], g)
      ∧ getOpen g = (Ok (replicate (Z.to_nat numOpen) []), g).
Proof.
  assert (Hf : getFoundation g = (Ok (foundation g), g))
    by (unfold getFoundation; by rewrite run_gets, copies_eq).
  assert (Ho : getOpen g = (Ok (open g), g))
    by (unfold getOpen; by rewrite run_gets, copies_eq).
  split; [done|]. split; [done|]. split.
  { unfold getCascade. by rewrite run_gets, copies_eq. }
  intros rnd numOpen numCascade Hg. rewrite Hf, Ho.
  destruct (constructor_layout _ _ _ _ Hg) as (nOpen & n & Hno & Hn & Hpo & Hpc & Heq).
  assert (Hwhole : ∀ z : Z, truncate (inject_Z z) = z).
  { intros z. unfold truncate.
    destruct (Qle_bool 0 (inject_Z z)); [apply Qfloor_Z|apply Qceiling_Z]. }
  cbn [parseInt] in Hpo, Hpc. rewrite Hwhole in Hpo, Hpc.
  injection Hpo as <-. injection Hpc as <-.
  unfold getNumOpen, getNumCascade. rewrite !run_gets, Heq.
  cbn [foundation open cascade]. unfold len.
  rewrite deal_length, !length_replicate, !Z2Nat.id by lia. done.
Qed.

(** ** Moves that undo each other *)

Lemma store_store {A} (a : list A) i x y : store (store a i x) i y = store a i y.
Proof. unfold store. case_bool_decide; [apply list_insert_insert_eq|done]. Qed.

Lemma store_same {A} (a : list A) i x : at_index a i = Some x → store a i x = a.
Proof.
  intros [Hi Hx]%at_index_lookup. unfold store.
  rewrite bool_decide_eq_true_2 by done. by apply list_insert_id.
Qed.

(** X17: taking the top card of a cascade pile to an empty open pile and
    then executing the move from that open pile back to the cascade pile
    restores the state exactly; neither call throws. *)
Theorem executeMove_to_cell_and_back
    (g : FreecellGame) (cascadePile openPile : PileRef) (ps : Pile) (x : Slot) :
  type cascadePile = "cascade" →
  type openPile = "open" →
  at_index (cascade g) (index cascadePile) = Some (ps ++ [x]) →
  at_index (open g) (index openPile) = Some [] →
  (executeMove cascadePile openPile g).1 = Ok tt
  ∧ executeMove openPile cascadePile (executeMove cascadePile openPile g).2
    = (Ok tt, g).
Proof.
  intros Hc Ho Hsrc Hcell.
  rewrite (executeMove_cascade_open g cascadePile openPile _ [] Hc Ho Hsrc Hcell).
  destruct (pop_snoc ps x) as [-> ->]. split; [done|]. simpl.
  rewrite (executeMove_open_cascade _ openPile cascadePile [x] ps Ho Hc);
    cbn [foundation open cascade].
  - change (removelast [x]) with (@nil Slot).
    change (element (top [x])) with x.
    rewrite !store_store, (store_same _ _ _ Hcell), (store_same _ _ _ Hsrc).
    by destruct g.
  - by eapply at_index_store_eq.
  - by eapply at_index_store_eq.
Qed.

(** X18: moving the run that starts at [cardIndex] from one cascade pile
    onto another, and then moving from the second pile, from the position
    where the run landed, back to the first, restores the state exactly. *)
Theorem executeMove_run_and_back
    (g : FreecellGame) (srcPile destPile : PileRef) (ps pd : Pile) :
  type srcPile = "cascade" →
  type destPile = "cascade" →
  index srcPile ≠ index destPile →
  at_index (cascade g) (index srcPile) = Some ps →
  at_index (cascade g) (index destPile) = Some pd →
  0 ≤ cardIndex srcPile ≤ len ps →
  executeMove (mkRef "cascade" (index destPile) (len pd)) srcPile
    (executeMove srcPile destPile g).2
  = (Ok tt, g).
Proof.
  intros Hs Hd Hne Hsrc Hdst Hrange.
  destruct (slice_in_range ps _ Hrange) as [Hto Hfrom].
  set (k := Z.to_nat (cardIndex srcPile)) in *.
  rewrite (executeMove_cascade_cascade g srcPile destPile ps pd Hs Hd Hsrc)
    by (by rewrite at_index_store_ne).
  rewrite Hto, Hfrom. simpl.
  assert (Hback : ∀ run : Pile,
            slice_to (pd ++ run) (len pd) = pd ∧ slice_from (pd ++ run) (len pd) = run).
  { intros run. destruct (slice_in_range (pd ++ run) (len pd)) as [-> ->].
    - unfold len. rewrite length_app. lia.
    - unfold len. rewrite Nat2Z.id.
      by rewrite take_app_length, drop_app_length. }
  rewrite (executeMove_cascade_cascade _ (mkRef "cascade" (index destPile) (len pd))
             srcPile (pd ++ drop k ps) (take k ps) eq_refl Hs);
    cbn [foundation open cascade index cardIndex].
  - destruct (Hback (drop k ps)) as [-> ->].
    rewrite take_drop.
    assert (Hswap : ∀ (a : list Pile) x y,
              store (store a (index destPile) x) (index srcPile) y
              = store (store a (index srcPile) y) (index destPile) x).
    { intros a x y. unfold store. repeat case_bool_decide; try done.
      apply list_insert_insert_ne. lia. }
    rewrite store_store, Hswap, !store_store, (store_same _ _ _ Hsrc),
      (store_same _ _ _ Hdst).
    by destruct g.
  - apply (at_index_store_eq _ _ _ pd). by rewrite at_index_store_ne.
  - destruct (Hback (drop k ps)) as [-> _].
    rewrite store_store, at_index_store_ne by done.
    by eapply at_index_store_eq.
Qed.

(** ** [attemptAutoMove] against [isValidMove] *)

Lemma getValidFoundation_needs_cascade_pile g srcPile :
  type srcPile = "cascade" →
  at_index (cascade g) (index srcPile) = None →
  getValidFoundation srcPile g = (TypeError, g).
Proof.
  intros Hs Hnone. unfold getValidFoundation. rewrite Hs. decide_kinds.
  cbn [for_loop]. mstep.
  destruct (at_index (foundation g) 0) as [f|]; mstep; [|reflexivity].
  destruct (bool_decide (len f = 0)); mstep.
  - rewrite Hnone. reflexivity.
  - destruct (top f) as [[t|]|]; mstep; try reflexivity.
    rewrite Hnone. reflexivity.
Qed.

(** X19: [attemptAutoMove] does not ask [isValidMove].  The move it makes
    to a foundation pile is always one that [isValidMove] accepts.  The
    move it makes to an open pile is accepted by [isValidMove] only if
    [cardIndex] names the top card of the source pile: with a deeper
    [cardIndex], [attemptAutoMove] still sends the top card to the open
    pile, a move [isValidMove] rejects. *)
Theorem attemptAutoMove_against_isValidMove
    (g : FreecellGame) (srcPile destPile : PileRef) :
  auto_destination g srcPile destPile →
  (type destPile = "foundation" →
   isValidMove (Some srcPile) (Some destPile) g = (Ok true, g))
  ∧ (type destPile = "open" →
     ∃ ps, at_index (cascade g) (index srcPile) = Some ps
           ∧ isValidMove (Some srcPile) (Some destPile) g
             = (Ok (bool_decide (cardIndex srcPile = len ps - 1)), g)).
Proof.
  intros [(v & Hsrc & Hgvf & Hv & ->)|(a & Hs & Hgvf & Hgfao & Ha & ->)];
    (split; [|]); intros Hd; try discriminate Hd.
  - unfold isValidMove, destination. cbn [type index].
    destruct Hsrc as [Hs|Hs]; rewrite Hs; decide_kinds;
      rewrite run_bind, Hgvf; by rewrite bool_decide_eq_false_2.
  - destruct (at_index (cascade g) (index srcPile)) as [ps|] eqn:Hps.
    2: { rewrite (getValidFoundation_needs_cascade_pile g srcPile Hs Hps) in Hgvf.
         discriminate Hgvf. }
    exists ps. split; [done|].
    destruct (getFirstAvailableOpen_cases g) as (a' & Ha' & Hcases).
    assert (a' = a) as -> by congruence.
    destruct Hcases as [[-> _]|[_ Hempty]]; [done|].
    unfold isValidMove, destination. cbn [type index]. rewrite Hs. decide_kinds.
    rewrite run_bind, Hgfao, (bool_decide_eq_false_2 (a = -1)) by done.
    mstep. rewrite Hps. mstep.
    destruct (decide (cardIndex srcPile = len ps - 1)) as [Htop|Htop].
    + rewrite (bool_decide_eq_false_2 (cardIndex srcPile ≠ len ps - 1)) by tauto.
      rewrite (bool_decide_eq_true_2 _ Htop). mstep. rewrite Hempty. reflexivity.
    + rewrite (bool_decide_eq_true_2 (cardIndex srcPile ≠ len ps - 1)) by done.
      by rewrite (bool_decide_eq_false_2 _ Htop).
Qed.

(** ** Where [isValidMove] and [_numCanMove] throw *)

(** X20: [isValidMove] does not always return a verdict.  It throws a
    TypeError, leaving the state alone, when the destination is a cascade
    pile that does not exist (from a cascade or open source that is not that
    same reference), when an open-to-open move names a destination open pile
    that does not exist, and when a cascade-to-open move names a source
    cascade pile that does not exist while some open pile is empty. *)
Theorem isValidMove_throws_on_missing_pile
    (g : FreecellGame) (srcPile destPile : PileRef) :
  (type destPile = "cascade" →
   type srcPile = "open" ∨ (type srcPile = "cascade" ∧ index srcPile ≠ index destPile) →
   at_index (cascade g) (index destPile) = None →
   isValidMove (Some srcPile) (Some destPile) g = (TypeError, g))
  ∧ (type srcPile = "open" → type destPile = "open" →
     index srcPile ≠ index destPile →
     at_index (open g) (index destPile) = None →
     isValidMove (Some srcPile) (Some destPile) g = (TypeError, g))
  ∧ (type srcPile = "cascade" → type destPile = "open" →
     [] ∈ open g →
     at_index (cascade g) (index srcPile) = None →
     isValidMove (Some srcPile) (Some destPile) g = (TypeError, g)).
Proof.
  split; [|split].
  - intros Hd [Hs|[Hs Hne]] Hnone; unfold isValidMove; rewrite Hs, Hd.
    + decide_kinds. mstep. rewrite Hnone. reflexivity.
    + rewrite (bool_decide_eq_false_2 (index srcPile = index destPile)) by done.
      decide_kinds. mstep. rewrite Hnone. reflexivity.
  - intros Hs Hd Hne Hnone. unfold isValidMove. rewrite Hs, Hd.
    rewrite (bool_decide_eq_false_2 (index srcPile = index destPile)) by done.
    decide_kinds. mstep. rewrite Hnone. reflexivity.
  - intros Hs Hd Hfree Hnone. unfold isValidMove. rewrite Hs, Hd. decide_kinds.
    destruct (getFirstAvailableOpen_cases g) as (a & Ha & [[_ Hno]|[Hne _]]); [done|].
    rewrite run_bind, Ha, (bool_decide_eq_false_2 (a = -1)) by done.
    mstep. rewrite Hnone. reflexivity.
Qed.

(** X21: [_numCanMove] throws on a destination index that names no cascade
    pile.  Otherwise the exponent it hands to [Math.pow] is never negative
    (the decrement happens only when the destination itself was counted), so
    the bound is a whole number, at least 1 and at least the number of
    empty open piles plus one: a single card is never over the bound. *)
Theorem numCanMove_at_least_one (g : FreecellGame) (destPileIndex : Z) :
  (at_index (cascade g) destPileIndex = None →
   _numCanMove destPileIndex g = (TypeError, g))
  ∧ (∀ d, at_index (cascade g) destPileIndex = Some d →
       ∃ e, 0 ≤ e
            ∧ _numCanMove destPileIndex g
              = (Ok ((count_empty (open g) + 1) * 2 ^ e), g)
            ∧ 1 ≤ count_empty (open g) + 1 ≤ (count_empty (open g) + 1) * 2 ^ e).
Proof.
  split.
  - intros Hnone. unfold _numCanMove. mstep. rewrite Hnone. reflexivity.
  - intros d Hd. rewrite (numCanMove_run _ _ _ Hd).
    destruct (at_index_lookup _ _ _ Hd) as [_ Hlookup].
    pose proof (empty_piles_delete _ _ _ Hlookup) as Hdelete.
    rewrite <-(count_empty_filter (cascade g)) in Hdelete.
    eexists. split; [|split; [reflexivity|]].
    + rewrite <-Hdelete. apply empty_piles_nonneg.
    + rewrite <-Hdelete.
      pose proof (empty_piles_nonneg (open g)) as Hopen.
      rewrite <-count_empty_filter in Hopen.
      pose proof (empty_piles_nonneg (delete (Z.to_nat destPileIndex) (cascade g))).
      assert (1 ≤ 2 ^ empty_piles (delete (Z.to_nat destPileIndex) (cascade g)))
        by (apply Z.pow_le_mono_r with (b := 0); lia || (change (2^0) with 1; lia)).
      nia.
Qed.

(** ** Moves from an open pile *)

(** X22: from an open pile that exists, a move to another open pile is
    accepted exactly when that pile is empty, and a move onto a cascade pile
    exactly when that pile is empty or its top card is stackable under the
    first entry of the source pile. *)
Theorem isValidMove_from_open
    (g : FreecellGame) (srcPile destPile : PileRef) (ps : Pile) :
  type srcPile = "open" →
  at_index (open g) (index srcPile) = Some ps →
  (type destPile = "open" → index srcPile ≠ index destPile →
   ∀ od, at_index (open g) (index destPile) = Some od →
         isValidMove (Some srcPile) (Some destPile) g = (Ok (bool_decide (od = [])), g))
  ∧ (type destPile = "cascade" →
     ∀ pd, at_index (cascade g) (index destPile) = Some pd →
           isValidMove (Some srcPile) (Some destPile) g
           = (Ok (bool_decide (pd = [])
                  || _isStackable (element (top pd)) (element (at_index ps 0))), g)).
Proof.
  intros Hs Hsrc. split.
  - intros Hd Hne od Hdst. unfold isValidMove. rewrite Hs, Hd.
    rewrite (bool_decide_eq_false_2 (index srcPile = index destPile)) by done.
    decide_kinds. mstep. rewrite Hdst. mstep.
    destruct (decide (od = [])) as [->|Hod]; [reflexivity|].
    rewrite (bool_decide_eq_true_2 (len od ≠ 0)) by (by rewrite len_nil_iff).
    by rewrite (bool_decide_eq_false_2 (od = [])).
  - intros Hd pd Hdst. unfold isValidMove. rewrite Hs, Hd.
    decide_kinds. mstep. rewrite Hdst. mstep.
    destruct (decide (pd = [])) as [->|Hpd]; [reflexivity|].
    rewrite (bool_decide_eq_false_2 (len pd = 0)) by (by rewrite len_nil_iff).
    rewrite (bool_decide_eq_false_2 (pd = [])) by done.
    mstep. rewrite Hsrc. mstep.
    by destruct (_isStackable _ _).
Qed.

(** ** The further properties at sample inputs *)

Lemma isBuild_all_stackable_witness :
  isBuild 9 0 sample_game = (TypeError, sample_game)
  ∧ ∃ b, isBuild 0 0 sample_game = (Ok b, sample_game).
Proof.
  split.
  - apply (proj1 (isBuild_all_stackable sample_game 9 0)). reflexivity.
  - destruct (proj2 (isBuild_all_stackable sample_game 0 0)
                [Some (mkCard 7 spades); Some (mkCard 6 hearts); Some (mkCard 5 spades)]
                eq_refl) as [b [Hb _]].
    exists b. exact Hb.
Defined.

Lemma isBuild_descending_alternating_witness :
  ∃ c0, element (at_index (A := Slot)
                   [Some (mkCard 7 spades); Some (mkCard 6 hearts); Some (mkCard 5 spades)]
                   0) = Some c0
        ∧ value c0 = 7.
Proof.
  destruct (isBuild_descending_alternating sample_game 0 0
              [Some (mkCard 7 spades); Some (mkCard 6 hearts); Some (mkCard 5 spades)]
              eq_refl eq_refl eq_refl) as [c0 [Hc0 _]].
  exists c0. split; [exact Hc0|]. injection Hc0 as <-. reflexivity.
Defined.

Lemma sample_foundation_tops :
  Forall (λ f : Pile, f = [] ∨ ∃ t, top f = Some (Some t)) (foundation sample_game).
Proof. repeat constructor. Qed.

Lemma getValidFoundation_open_first_taking_witness :
  getValidFoundation (mkRef "open" 1 0) sample_game = (Ok (-1), sample_game).
Proof.
  apply (getValidFoundation_open_first_taking sample_game (mkRef "open" 1 0)
           (mkCard 9 clubs) [] [] [] [] eq_refl eq_refl eq_refl sample_foundation_tops).
Defined.

Lemma getValidFoundation_cascade_first_taking_or_none_witness :
  ∃ v, getValidFoundation (mkRef "cascade" 0 2) sample_game = (Ok v, sample_game).
Proof.
  destruct (getValidFoundation_cascade_first_taking_or_none sample_game
              (mkRef "cascade" 0 2) (mkCard 5 spades) [] [] [] []
              eq_refl eq_refl eq_refl sample_foundation_tops) as [v [Hv _]].
  exists v. exact Hv.
Defined.

Lemma getValidFoundation_without_card_witness :
  getValidFoundation (mkRef "open" 0 0) sample_game = (TypeError, sample_game)
  ∧ getValidFoundation (mkRef "cascade" 0 5) sample_game = (TypeError, sample_game)
  ∧ getValidFoundation (mkRef "foundation" 0 0) sample_game = (Ok (-1), sample_game).
Proof.
  split; [|split].
  - apply (proj1 (proj2 (getValidFoundation_without_card sample_game
             (mkRef "open" 0 0))) eq_refl).
    intros c Hc. discriminate Hc.
  - apply (proj1 (getValidFoundation_without_card sample_game
             (mkRef "cascade" 0 5)) eq_refl).
    intros c Hc. discriminate Hc.
  - apply (proj2 (proj2 (getValidFoundation_without_card sample_game
             (mkRef "foundation" 0 0)))); discriminate.
Defined.

Lemma isValidMove_ignores_foundation_index_witness :
  isValidMove (Some (mkRef "cascade" 0 2)) (Some (mkRef "foundation" 0 0)) sample_game
  = isValidMove (Some (mkRef "cascade" 0 2)) (Some (mkRef "foundation" 7 0)) sample_game.
Proof.
  apply (proj1 (isValidMove_ignores_foundation_index sample_game
           (mkRef "cascade" 0 2) (mkRef "foundation" 0 0) (mkRef "foundation" 7 0)
           eq_refl eq_refl)).
Defined.

Lemma isValidMove_cascade_to_open_witness :
  isValidMove (Some (mkRef "cascade" 0 2)) (Some (mkRef "open" 7 0)) sample_game
  = (Ok true, sample_game)
  ∧ executeMove (mkRef "cascade" 0 2) (mkRef "open" 7 0) sample_game
    = (TypeError, sample_game).
Proof.
  destruct (isValidMove_cascade_to_open sample_game
              (mkRef "cascade" 0 2) (mkRef "open" 7 0)
              [Some (mkCard 7 spades); Some (mkCard 6 hearts); Some (mkCard 5 spades)]
              eq_refl eq_refl eq_refl) as [Hverdict Hthrow].
  split; [exact Hverdict|]. apply Hthrow. reflexivity.
Defined.

Lemma executeMove_keeps_cards_witness :
  cards (executeMove (mkRef "cascade" 0 0) (mkRef "foundation" 2 0) sample_game).2
  ≡ₚ cards sample_game.
Proof.
  apply (executeMove_keeps_cards sample_game
           (mkRef "cascade" 0 0) (mkRef "foundation" 2 0)).
  intros (_ & Hkind & _). discriminate Hkind.
Defined.

Lemma executeMove_loses_detached_run_witness :
  executeMove (mkRef "cascade" 0 1) (mkRef "cascade" 9 0) sample_game
  = (TypeError,
     mkGame (foundation sample_game) (open sample_game)
       (store (cascade sample_game) 0 [Some (mkCard 7 spades)])).
Proof.
  apply (executeMove_loses_detached_run sample_game
           (mkRef "cascade" 0 1) (mkRef "cascade" 9 0)
           [Some (mkCard 7 spades); Some (mkCard 6 hearts); Some (mkCard 5 spades)]
           eq_refl eq_refl eq_refl eq_refl).
Defined.

Lemma mutators_keep_piles_and_foundations_witness :
  length (open (executeMove (mkRef "cascade" 0 2) (mkRef "open" 0 0) sample_game).2)
  = length (open sample_game).
Proof.
  apply (mutators_keep_piles_and_foundations sample_game
           (executeMove (mkRef "cascade" 0 2) (mkRef "open" 0 0) sample_game).2).
  apply plays_executeMove, plays_start.
Defined.



Lemma accessors_read_the_piles_witness :
  getNumOpen fresh_4_4 = (Ok 4, fresh_4_4)
  ∧ getNumCascade fresh_4_4 = (Ok 4, fresh_4_4).
Proof.
  destruct (proj2 (proj2 (proj2 (accessors_read_the_piles fresh_4_4)))
              zero_source 4 4 fresh_4_4_constructed) as (Ho & Hc & _).
  split; [exact Ho|exact Hc].
Defined.

Lemma executeMove_to_cell_and_back_witness :
  executeMove (mkRef "open" 0 0) (mkRef "cascade" 0 2)
    (executeMove (mkRef "cascade" 0 2) (mkRef "open" 0 0) sample_game).2
  = (Ok tt, sample_game).
Proof.
  apply (executeMove_to_cell_and_back sample_game
           (mkRef "cascade" 0 2) (mkRef "open" 0 0)
           [Some (mkCard 7 spades); Some (mkCard 6 hearts)] (Some (mkCard 5 spades))
           eq_refl eq_refl eq_refl eq_refl).
Defined.

Lemma executeMove_run_and_back_witness :
  executeMove (mkRef "cascade" 2 2) (mkRef "cascade" 0 1)
    (executeMove (mkRef "cascade" 0 1) (mkRef "cascade" 2 0) sample_game).2
  = (Ok tt, sample_game).
Proof.
  apply (executeMove_run_and_back sample_game
           (mkRef "cascade" 0 1) (mkRef "cascade" 2 0)
           [Some (mkCard 7 spades); Some (mkCard 6 hearts); Some (mkCard 5 spades)]
           [Some (mkCard 13 diamonds); Some (mkCard 8 diamonds)]
           eq_refl eq_refl ltac:(discriminate) eq_refl eq_refl).
  split; discriminate.
Defined.

Lemma attemptAutoMove_against_isValidMove_witness :
  ∃ ps, at_index (cascade sample_game) 0 = Some ps
        ∧ isValidMove (Some (mkRef "cascade" 0 1)) (Some (destination "open" 0)) sample_game
          = (Ok (bool_decide (1 = len ps - 1)), sample_game).
Proof.
  assert (Hdest : auto_destination sample_game (mkRef "cascade" 0 1) (destination "open" 0)).
  { right. exists 0. split; [reflexivity|]. split; [vm_compute; reflexivity|].
    split; [vm_compute; reflexivity|]. split; [discriminate|reflexivity]. }
  destruct (proj2 (attemptAutoMove_against_isValidMove sample_game
              (mkRef "cascade" 0 1) (destination "open" 0) Hdest) eq_refl)
    as [ps [Hps Hverdict]].
  exists ps. split; [exact Hps|exact Hverdict].
Defined.

Lemma isValidMove_throws_on_missing_pile_witness :
  isValidMove (Some (mkRef "open" 1 0)) (Some (mkRef "cascade" 9 0)) sample_game
  = (TypeError, sample_game).
Proof.
  apply (proj1 (isValidMove_throws_on_missing_pile sample_game
           (mkRef "open" 1 0) (mkRef "cascade" 9 0)) eq_refl (or_introl eq_refl) eq_refl).
Defined.

Lemma numCanMove_at_least_one_witness :
  _numCanMove 9 sample_game = (TypeError, sample_game)
  ∧ ∃ e, 0 ≤ e ∧ _numCanMove 1 sample_game = (Ok (3 * 2 ^ e), sample_game).
Proof.
  split.
  - apply (proj1 (numCanMove_at_least_one sample_game 9)). reflexivity.
  - destruct (proj2 (numCanMove_at_least_one sample_game 1) [] eq_refl)
      as (e & He & Hrun & _).
    exists e. split; [exact He|exact Hrun].
Defined.

Lemma isValidMove_from_open_witness :
  isValidMove (Some (mkRef "open" 1 0)) (Some (mkRef "open" 0 0)) sample_game
  = (Ok true, sample_game)
  ∧ isValidMove (Some (mkRef "open" 1 0)) (Some (mkRef "cascade" 2 0)) sample_game
    = (Ok false, sample_game).
Proof.
  destruct (isValidMove_from_open sample_game (mkRef "open" 1 0) (mkRef "open" 0 0)
              [Some (mkCard 9 clubs)] eq_refl eq_refl) as [Hopen _].
  destruct (isValidMove_from_open sample_game (mkRef "open" 1 0) (mkRef "cascade" 2 0)
              [Some (mkCard 9 clubs)] eq_refl eq_refl) as [_ Hcascade].
  split.
  - apply (Hopen eq_refl ltac:(discriminate) [] eq_refl).
  - apply (Hcascade eq_refl [Some (mkCard 13 diamonds); Some (mkCard 8 diamonds)] eq_refl).
Defined.
